(** * My-task-buddy: data-access contract of the task manager

    A shallow embedding of the data-access code of the application
    (src/pages/Index.tsx, src/pages/Profile.tsx and their earlier versions)
    together with the two SQL migrations that define the [tasks] and
    [profiles] tables, their row-level-security policies and the
    [updated_at] trigger.

    Conventions.
    - JavaScript strings are Rocq [string]s; a character is one code unit in
      the Latin-1 range.
    - UUIDs are the strings the client sees ([id: string]).
    - Timestamps are integers ([Date.now()], [now()]).
    - [null]/[undefined] are [None].
    - A statement sent to the store either yields a value or a
      [PostgrestError]; the store is threaded explicitly. *)

From Stdlib Require Import List String Ascii Bool Arith ZArith QArith Qround Lia.
From Stdlib Require Import DecimalString Sorted.
Import ListNotations.

Local Close Scope Q_scope.
Local Open Scope string_scope.
Local Open Scope list_scope.
Local Open Scope nat_scope.

(** ** JavaScript string primitives used by the pages *)

Module Js.

(** White space removed by [String.prototype.trim] (code units below 256):
    TAB, LF, VT, FF, CR, SPACE and NBSP. *)
Definition is_whitespace (c : ascii) : bool :=
  let n := nat_of_ascii c in
  ((9 <=? n) && (n <=? 13)) || (n =? 32) || (n =? 160).

Fixpoint trimStart (s : string) : string :=
  match s with
  | EmptyString => EmptyString
  | String c s' => if is_whitespace c then trimStart s' else s
  end.

Fixpoint trimEnd (s : string) : string :=
  match s with
  | EmptyString => EmptyString
  | String c s' =>
      match trimEnd s' with
      | EmptyString => if is_whitespace c then EmptyString else String c EmptyString
      | t => String c t
      end
  end.

(** [s.trim()] *)
Definition trim (s : string) : string := trimEnd (trimStart s).

(** Truthiness of a string: only the empty string is falsy. *)
Definition truthy (s : string) : bool :=
  match s with EmptyString => false | String _ _ => true end.

(** [s || null] *)
Definition or_null (s : string) : option string :=
  if truthy s then Some s else None.

(** [a ?? b] *)
Definition nullish {A} (a : option A) (b : A) : A :=
  match a with Some x => x | None => b end.

Definition lower_char (c : ascii) : ascii :=
  let n := nat_of_ascii c in
  if ((65 <=? n) && (n <=? 90)) ||
     ((192 <=? n) && (n <=? 222) && negb (n =? 215))
  then ascii_of_nat (n + 32) else c.

(** [s.toLowerCase()] *)
Fixpoint toLowerCase (s : string) : string :=
  match s with
  | EmptyString => EmptyString
  | String c s' => String (lower_char c) (toLowerCase s')
  end.

(** [s.startsWith(p)] *)
Fixpoint startsWith (s p : string) {struct p} : bool :=
  match p, s with
  | EmptyString, _ => true
  | String _ _, EmptyString => false
  | String a p', String b s' => Ascii.eqb a b && startsWith s' p'
  end.

(** [s.includes(sub)] *)
Fixpoint includes (s sub : string) : bool :=
  startsWith s sub ||
  match s with
  | EmptyString => false
  | String _ s' => includes s' sub
  end.

(** [s.split(sep).pop()]: the text after the last occurrence of the
    one-character separator, or the whole string when there is none. *)
Fixpoint split_pop (sep : ascii) (s : string) : string :=
  match s with
  | EmptyString => EmptyString
  | String c s' =>
      if Ascii.eqb c sep then split_pop sep s'
      else if includes s' (String sep EmptyString) then split_pop sep s'
      else s
  end.

(** Decimal rendering of a non-negative integer inside a template string. *)
Definition number_to_string (n : Z) : string :=
  NilEmpty.string_of_uint (N.to_uint (Z.to_N n)).

End Js.

(** Mathematical reading of "sub occurs in s". *)
Definition is_substring (sub s : string) : Prop :=
  exists pre post, s = (pre ++ sub ++ post)%string.

Definition whitespace_only (s : string) : Prop :=
  forall c, In c (list_ascii_of_string s) -> Js.is_whitespace c = true.

(** ** The store: PostgreSQL behind PostgREST *)

Definition UUID := string.
Definition Timestamp := Z.
Bind Scope Z_scope with Timestamp.

Inductive PostgrestError : Type :=
| RlsViolation      (* 42501: new row violates row-level security policy *)
| UniqueViolation.  (* 23505: duplicate key value *)

Inductive Result (A : Type) : Type :=
| Ok (a : A)
| Err (e : PostgrestError).
Arguments Ok {A} a.
Arguments Err {A} e.

(** What react-query observes of a mutation: the handler was never run
    (disabled control), [mutationFn] returned, or it threw. *)
Inductive MutationOutcome : Type :=
| NotInvoked
| Resolved
| Rejected (e : PostgrestError).

Module Sql.

(** [auth.uid() = owner] in a policy: SQL equality, so an anonymous
    request ([auth.uid()] is NULL) satisfies it for no row. *)
Definition auth_uid_eq (uid : option UUID) (owner : UUID) : bool :=
  match uid with
  | Some u => String.eqb u owner
  | None => false
  end.

(** LIKE patterns: [%] any sequence, [_] any one character, backslash
    escapes the next character. *)
Inductive like_token : Type :=
| AnySeq
| AnyOne
| Lit (c : ascii).

Fixpoint like_tokens (p : string) : list like_token :=
  match p with
  | EmptyString => []
  | String c p' =>
      if Ascii.eqb c "%" then AnySeq :: like_tokens p'
      else if Ascii.eqb c "_" then AnyOne :: like_tokens p'
      else if Ascii.eqb c "\" then
        match p' with
        | String d p'' => Lit d :: like_tokens p''
        | EmptyString => [Lit c]
        end
      else Lit c :: like_tokens p'
  end.

Fixpoint like_match (p : list like_token) (s : string) : bool :=
  match p with
  | [] => match s with EmptyString => true | String _ _ => false end
  | AnySeq :: p' =>
      (fix any (s : string) : bool :=
         like_match p' s ||
         match s with
         | EmptyString => false
         | String _ s' => any s'
         end) s
  | AnyOne :: p' =>
      match s with
      | EmptyString => false
      | String _ s' => like_match p' s'
      end
  | Lit c :: p' =>
      match s with
      | EmptyString => false
      | String d s' => Ascii.eqb c d && like_match p' s'
      end
  end.

(** [s ILIKE p] *)
Definition ilike (s p : string) : bool :=
  like_match (like_tokens (Js.toLowerCase p)) (Js.toLowerCase s).

(** PostgREST accepts [*] as an alias of [%] in the value of a
    [like]/[ilike] filter. *)
Fixpoint star_alias (v : string) : string :=
  match v with
  | EmptyString => EmptyString
  | String c v' => String (if Ascii.eqb c "*" then "%"%char else c) (star_alias v')
  end.

(** The filter [col.ilike.v] on a nullable text column: NULL matches
    nothing. *)
Definition ilike_filter (col : option string) (v : string) : bool :=
  match col with
  | Some s => ilike s (star_alias v)
  | None => false
  end.

(** [.range(from, to)]: rows [from..to], both inclusive
    (OFFSET from LIMIT to - from + 1). *)
Definition range {A} (from to : Z) (rows : list A) : list A :=
  firstn (Z.to_nat (to - from + 1)) (skipn (Z.to_nat from) rows).

End Sql.

(** Characters with a special meaning inside the textual filter that the
    task query sends: LIKE wildcards and escape, the PostgREST alias of
    [%], and the separators of the [or=(...)] list. *)
Definition is_filter_special (c : ascii) : bool :=
  existsb (Ascii.eqb c) (list_ascii_of_string "%_\*,()").

(** The tokens of a pattern text without special characters. *)
Definition lits (w : string) : list Sql.like_token :=
  map Sql.Lit (list_ascii_of_string w).

Definition plain (s : string) : Prop :=
  forall c, In c (list_ascii_of_string s) -> is_filter_special c = false.

(** ** Row updates, shared by both tables *)

(** Rows that carry an [updated_at] column. *)
Class Timestamped (R : Type) : Type := {
  get_updated_at : R -> Timestamp;
  set_updated_at : Timestamp -> R -> R
}.

(** [public.update_updated_at_column()]:
    [new.updated_at = now(); return new;] *)
Definition update_updated_at_column {R} `{Timestamped R}
    (now : Timestamp) (new : R) : R :=
  set_updated_at now new.

Fixpoint distinct (l : list string) : bool :=
  match l with
  | [] => true
  | x :: l' => negb (existsb (String.eqb x) l') && distinct l'
  end.

Section Table.

Context {R P : Type} `{Timestamped R}.

(** The owner column, the effect of a SET clause on a row, and the
    table's PRIMARY KEY / UNIQUE constraints. *)
Variable owner : R -> UUID.
Variable assign : P -> R -> R.
Variable constraints : list R -> bool.

(** Rows an UPDATE issued by [uid] with condition [w] acts on: the USING
    clause of the update policy hides every other row. *)
Definition targeted (uid : option UUID) (w : R -> bool) (r : R) : bool :=
  Sql.auth_uid_eq uid (owner r) && w r.

(** The new version of a targeted row: SET clause, then the BEFORE UPDATE
    row trigger. *)
Definition new_row (p : P) (now : Timestamp) (r : R) : R :=
  update_updated_at_column now (assign p r).

Definition update_row (uid : option UUID) (w : R -> bool) (p : P)
    (now : Timestamp) (r : R) : R :=
  if targeted uid w r then new_row p now r else r.

(** [UPDATE t SET p WHERE w].  A policy with only a USING clause applies
    the same expression to the new row; constraints are checked on the
    resulting table. *)
Definition sql_update (uid : option UUID) (w : R -> bool) (p : P)
    (now : Timestamp) (t : list R) : Result (list R) :=
  let t' := map (update_row uid w p now) t in
  if forallb (fun r => implb (targeted uid w r)
                         (Sql.auth_uid_eq uid (owner (new_row p now r)))) t
  then if constraints t' then Ok t' else Err UniqueViolation
  else Err RlsViolation.

End Table.

(** ** Table [public.tasks] *)

Inductive TaskStatus : Type := pending | completed.

Definition TaskStatus_eqb (a b : TaskStatus) : bool :=
  match a, b with
  | pending, pending | completed, completed => true
  | _, _ => false
  end.

Module Tasks.

Record row : Type := mk {
  id : UUID;
  user_id : UUID;
  title : string;
  description : option string;
  status : TaskStatus;
  created_at : Timestamp;
  updated_at : Timestamp
}.

(** Row-level-security policies of the first migration. *)
Definition Users_can_view_their_own_tasks (uid : option UUID) (r : row) : bool :=
  Sql.auth_uid_eq uid (user_id r).
Definition Users_can_create_their_own_tasks (uid : option UUID) (r : row) : bool :=
  Sql.auth_uid_eq uid (user_id r).
Definition Users_can_update_their_own_tasks (uid : option UUID) (r : row) : bool :=
  Sql.auth_uid_eq uid (user_id r).
Definition Users_can_delete_their_own_tasks (uid : option UUID) (r : row) : bool :=
  Sql.auth_uid_eq uid (user_id r).

(** [SELECT ... WHERE w] issued with identity [uid]. *)
Definition select (uid : option UUID) (w : row -> bool) (t : list row) : list row :=
  filter w (filter (Users_can_view_their_own_tasks uid) t).

Fixpoint insert_desc (r : row) (l : list row) : list row :=
  match l with
  | [] => [r]
  | x :: l' =>
      if (created_at x <=? created_at r)%Z then r :: l
      else x :: insert_desc r l'
  end.

(** [.order("created_at", { ascending: false })] *)
Definition order_by_created_at_desc (l : list row) : list row :=
  fold_right insert_desc [] l.

#[global] Instance timestamped : Timestamped row := {
  get_updated_at := updated_at;
  set_updated_at := fun now r =>
    mk (id r) (user_id r) (title r) (description r) (status r) (created_at r) now
}.

(** The columns a statement may name.  [None] is a column left out. *)
Record patch : Type := mk_patch {
  set_id : option UUID;
  set_user_id : option UUID;
  set_title : option string;
  set_description : option (option string);
  set_status : option TaskStatus;
  set_created_at : option Timestamp;
  set_updated_at_col : option Timestamp
}.

Definition assign (p : patch) (r : row) : row :=
  mk (Js.nullish (set_id p) (id r))
     (Js.nullish (set_user_id p) (user_id r))
     (Js.nullish (set_title p) (title r))
     (Js.nullish (set_description p) (description r))
     (Js.nullish (set_status p) (status r))
     (Js.nullish (set_created_at p) (created_at r))
     (Js.nullish (set_updated_at_col p) (updated_at r)).

(** [id uuid primary key] *)
Definition constraints (t : list row) : bool := distinct (map id t).

Definition update := sql_update user_id assign constraints.

(** [DELETE FROM tasks WHERE w]: removes the rows the delete policy lets
    the caller see that satisfy [w]; zero rows is not an error. *)
Definition delete (uid : option UUID) (w : row -> bool) (t : list row)
    : Result (list row) :=
  Ok (filter (fun r => negb (Users_can_delete_their_own_tasks uid r && w r)) t).

(** Values of an INSERT.  Omitted columns take their defaults:
    [gen_random_uuid()] for [id] (drawn by the server, here [new_id]),
    NULL for [description], ['pending'] for [status], [now()] for both
    timestamps.  [user_id] has no default. *)
Record values : Type := mk_values {
  v_title : string;
  v_description : option string;
  v_status : option TaskStatus;
  v_user_id : option UUID
}.

Definition insert (uid : option UUID) (v : values) (now : Timestamp)
    (new_id : UUID) (t : list row) : Result (list row) :=
  match v_user_id v with
  | None => Err RlsViolation
  | Some o =>
      let r := mk new_id o (v_title v) (v_description v)
                  (Js.nullish (v_status v) pending) now now in
      if Users_can_create_their_own_tasks uid r
      then if constraints (t ++ [r]) then Ok (t ++ [r]) else Err UniqueViolation
      else Err RlsViolation
  end.

End Tasks.

(** A list of task rows sorted by [created_at], newest first. *)
Inductive newest_first : list Tasks.row -> Prop :=
| nf_nil : newest_first []
| nf_cons r l :
    (forall x, In x l -> (Tasks.created_at x <= Tasks.created_at r)%Z) ->
    newest_first l -> newest_first (r :: l).

(** ** Table [public.profiles] *)

Module Profiles.

Record row : Type := mk {
  id : UUID;
  user_id : UUID;
  name : option string;
  avatar_url : option string;
  created_at : Timestamp;
  updated_at : Timestamp
}.

Definition Users_can_view_their_own_profile (uid : option UUID) (r : row) : bool :=
  Sql.auth_uid_eq uid (user_id r).
Definition Users_can_create_their_own_profile (uid : option UUID) (r : row) : bool :=
  Sql.auth_uid_eq uid (user_id r).
Definition Users_can_update_their_own_profile (uid : option UUID) (r : row) : bool :=
  Sql.auth_uid_eq uid (user_id r).

#[global] Instance timestamped : Timestamped row := {
  get_updated_at := updated_at;
  set_updated_at := fun now r =>
    mk (id r) (user_id r) (name r) (avatar_url r) (created_at r) now
}.

Record patch : Type := mk_patch {
  set_id : option UUID;
  set_user_id : option UUID;
  set_name : option (option string);
  set_avatar_url : option (option string);
  set_created_at : option Timestamp;
  set_updated_at_col : option Timestamp
}.

Definition assign (p : patch) (r : row) : row :=
  mk (Js.nullish (set_id p) (id r))
     (Js.nullish (set_user_id p) (user_id r))
     (Js.nullish (set_name p) (name r))
     (Js.nullish (set_avatar_url p) (avatar_url r))
     (Js.nullish (set_created_at p) (created_at r))
     (Js.nullish (set_updated_at_col p) (updated_at r)).

(** [id uuid PRIMARY KEY], [user_id uuid NOT NULL UNIQUE] *)
Definition constraints (t : list row) : bool :=
  distinct (map id t) && distinct (map user_id t).

Definition update := sql_update user_id assign constraints.

(** The object handed to [.upsert]. *)
Record values : Type := mk_values {
  v_user_id : UUID;
  v_name : option string;
  v_avatar_url : option string
}.

(** SET clause of the conflict branch: every column of the payload is
    taken from the proposed row. *)
Definition excluded (v : values) : patch :=
  mk_patch None (Some (v_user_id v)) (Some (v_name v)) (Some (v_avatar_url v))
           None None.

Definition conflicts (v : values) (r : row) : bool :=
  String.eqb (user_id r) (v_user_id v).

(** [INSERT ... ON CONFLICT (user_id) DO UPDATE SET ...]
    ([.upsert(v, { onConflict: "user_id" })]).  The insert policy is
    checked on the proposed row in both branches. *)
Definition upsert (uid : option UUID) (v : values) (now : Timestamp)
    (new_id : UUID) (t : list row) : Result (list row) :=
  let proposed := mk new_id (v_user_id v) (v_name v) (v_avatar_url v) now now in
  if Users_can_create_their_own_profile uid proposed then
    if existsb (conflicts v) t
    then update uid (conflicts v) (excluded v) now t
    else if constraints (t ++ [proposed]) then Ok (t ++ [proposed])
         else Err UniqueViolation
  else Err RlsViolation.

End Profiles.

(** What a mutation leaves behind: the outcome seen by react-query and the
    table, which is unchanged when the statement failed. *)
Definition settle {S} (old : S) (r : Result S) : MutationOutcome * S :=
  match r with
  | Ok s => (Resolved, s)
  | Err e => (Rejected e, old)
  end.

(** ** src/pages/Index.tsx *)

Module Index.

Record Task : Type := mkTask {
  id : string;
  title : string;
  description : option string;
  status : TaskStatus;
  created_at : Timestamp
}.

(** [.select("id, title, description, status, created_at")] *)
Definition select_columns (r : Tasks.row) : Task :=
  mkTask (Tasks.id r) (Tasks.title r) (Tasks.description r) (Tasks.status r)
         (Tasks.created_at r).

Inductive StatusFilter : Type := all | only (s : TaskStatus).

Definition pageSize : Z := 10.

(** [query.eq("status", statusFilter)], added unless the filter is "all". *)
Definition status_clause (statusFilter : StatusFilter) (r : Tasks.row) : bool :=
  match statusFilter with
  | all => true
  | only s => TaskStatus_eqb (Tasks.status r) s
  end.

(** [query.or(`title.ilike.${searchValue},description.ilike.${searchValue}`)],
    added when [search.trim()] is truthy.  The value is read as an ILIKE
    pattern; a search text with [,], [(] or [)] would change the shape of
    the filter list and is outside this reading. *)
Definition search_clause (search : string) (r : Tasks.row) : bool :=
  if Js.truthy (Js.trim search) then
    let searchValue := ("%" ++ Js.trim search ++ "%")%string in
    Sql.ilike_filter (Some (Tasks.title r)) searchValue ||
    Sql.ilike_filter (Tasks.description r) searchValue
  else true.

(** The rows the query matches before [.range] is applied, in order. *)
Definition matching (uid : option UUID) (statusFilter : StatusFilter)
    (search : string) (tasks : list Tasks.row) : list Tasks.row :=
  Tasks.order_by_created_at_desc
    (Tasks.select uid
       (fun r => status_clause statusFilter r && search_clause search r) tasks).

Record QueryData : Type := mkQueryData {
  data : list Task;
  count : nat
}.

(** [queryFn] of the "tasks" query; [uid] is the identity of the session
    the client sends the request with.  The page starts at 1 and
    [handlePageChange] keeps it between 1 and [pageCount]. *)
Definition queryFn (uid : option UUID) (statusFilter : StatusFilter)
    (search : string) (page : Z) (tasks : list Tasks.row) : Result QueryData :=
  let rows := matching uid statusFilter search tasks in
  let from := ((page - 1) * pageSize)%Z in
  let to := (from + pageSize - 1)%Z in
  Ok (mkQueryData (map select_columns (Sql.range from to rows)) (List.length rows)).

(** [Math.max(1, Math.ceil(totalCount / pageSize))] *)
Definition pageCount (totalCount : Z) : Z :=
  Z.max 1 (Qceiling (inject_Z totalCount / inject_Z pageSize)%Q).

(** [createTask.mutationFn]: [user] is the signed-in user's id, which is
    also the identity of the request. *)
Definition createTask_mutationFn (user : option UUID) (title description : string)
    (status : TaskStatus) (now : Timestamp) (new_id : UUID)
    (tasks : list Tasks.row) : Result (list Tasks.row) :=
  Tasks.insert user
    (Tasks.mk_values title (Js.or_null description) (Some status) user)
    now new_id tasks.

Definition createTask (user : option UUID) (title description : string)
    (status : TaskStatus) (now : Timestamp) (new_id : UUID)
    (tasks : list Tasks.row) : MutationOutcome * list Tasks.row :=
  settle tasks (createTask_mutationFn user title description status now new_id tasks).

(** [disabled={createTask.isPending || !title.trim()}] *)
Definition addTask_disabled (isPending : bool) (title : string) : bool :=
  isPending || negb (Js.truthy (Js.trim title)).

(** A click on "Add Task": a disabled button runs no handler. *)
Definition addTask_click (isPending : bool) (user : option UUID)
    (title description : string) (status : TaskStatus) (now : Timestamp)
    (new_id : UUID) (tasks : list Tasks.row) : MutationOutcome * list Tasks.row :=
  if addTask_disabled isPending title then (NotInvoked, tasks)
  else createTask user title description status now new_id tasks.

(** [Partial<Task> & { id: string }] restricted to the fields
    [updateTask] reads. *)
Record TaskUpdate : Type := mkTaskUpdate {
  u_id : string;
  u_title : option string;
  u_description : option (option string);
  u_status : option TaskStatus
}.

Definition updateTask (user : option UUID) (task : TaskUpdate)
    (now : Timestamp) (tasks : list Tasks.row) : MutationOutcome * list Tasks.row :=
  settle tasks
    (Tasks.update user (fun r => String.eqb (Tasks.id r) (u_id task))
       (Tasks.mk_patch None None (u_title task) (u_description task)
          (u_status task) None None)
       now tasks).

Definition handleToggleStatus (user : option UUID) (task : Task)
    (now : Timestamp) (tasks : list Tasks.row) : MutationOutcome * list Tasks.row :=
  updateTask user
    (mkTaskUpdate (id task) None None
       (Some (match status task with pending => completed | completed => pending end)))
    now tasks.

(** [supabase.from("tasks").delete().eq("id", id)] *)
Definition deleteTask (user : option UUID) (id : string)
    (tasks : list Tasks.row) : MutationOutcome * list Tasks.row :=
  settle tasks (Tasks.delete user (fun r => String.eqb (Tasks.id r) id) tasks).

End Index.

(** ** The earlier version of the dashboard: filtering in the client *)

Module IndexEarlier.

(** [queryFn]: every visible task, newest first. *)
Definition queryFn (uid : option UUID) (tasks : list Tasks.row)
    : Result (list Index.Task) :=
  Ok (map Index.select_columns
        (Tasks.order_by_created_at_desc (Tasks.select uid (fun _ => true) tasks))).

Definition matchesSearch (search : string) (task : Index.Task) : bool :=
  (String.length (Js.trim search) =? 0) ||
  Js.includes (Js.toLowerCase (Index.title task)) (Js.toLowerCase search) ||
  Js.includes (Js.toLowerCase (Js.nullish (Index.description task) EmptyString))
              (Js.toLowerCase search).

Definition matchesStatus (statusFilter : Index.StatusFilter) (task : Index.Task) : bool :=
  match statusFilter with
  | Index.all => true
  | Index.only s => TaskStatus_eqb (Index.status task) s
  end.

Definition filteredTasks (tasks : list Index.Task) (search : string)
    (statusFilter : Index.StatusFilter) : list Index.Task :=
  filter (fun task => matchesSearch search task && matchesStatus statusFilter task) tasks.

End IndexEarlier.

(** ** src/pages/Profile.tsx *)

Module File.
Record t : Type := mk {
  name : string;
  size : Z;
  type : string
}.
End File.

(** Requests that leave the browser. *)
Inductive NetworkCall : Type :=
| StorageUpload (bucket path : string) (file : File.t)
| ProfilesUpsert (v : Profiles.values).

Module Profile.

(** *** Task counts *)

Definition status_key (s : TaskStatus) : string :=
  match s with
  | pending => "pending"
  | completed => "completed"
  end.

(** [Record<string, number>]: own properties in insertion order. *)
Definition JsRecord := list (string * nat).

Fixpoint get (o : JsRecord) (k : string) : option nat :=
  match o with
  | [] => None
  | (k', v) :: o' => if String.eqb k' k then Some v else get o' k
  end.

Fixpoint set (o : JsRecord) (k : string) (v : nat) : JsRecord :=
  match o with
  | [] => [(k, v)]
  | (k', v') :: o' =>
      if String.eqb k' k then (k', v) :: o' else (k', v') :: set o' k v
  end.

Record TaskCountRow : Type := mkCount {
  status : string;
  count : nat
}.

(** [summary[row.status] = (summary[row.status] ?? 0) + 1] *)
Definition tally (summary : JsRecord) (st : TaskStatus) : JsRecord :=
  set summary (status_key st) (Js.nullish (get summary (status_key st)) 0 + 1).

(** [for (const row of rows) { ... }] starting from [{}]. *)
Definition summarize (rows : list TaskStatus) : JsRecord :=
  fold_left tally rows [].

(** [queryFn] of the "task-counts" query.  Of the selected columns only
    [status] is read. *)
Definition counts_queryFn (user : option UUID) (tasks : list Tasks.row)
    : Result (list TaskCountRow) :=
  match user with
  | None => Ok []
  | Some u =>
      let rows := map Tasks.status
                    (Tasks.select user (fun r => String.eqb (Tasks.user_id r) u) tasks) in
      Ok (map (fun e => mkCount (fst e) (snd e)) (summarize rows))
  end.

(** [const { data: counts = [] } = useQuery(...)] *)
Definition counts (user : option UUID) (tasks : list Tasks.row) : list TaskCountRow :=
  match counts_queryFn user tasks with
  | Ok c => c
  | Err _ => []
  end.

Definition totalTasks (counts : list TaskCountRow) : nat :=
  fold_left (fun sum row => sum + count row) counts 0.

Definition count_of (st : string) (counts : list TaskCountRow) : nat :=
  match find (fun row => String.eqb (status row) st) counts with
  | Some row => count row
  | None => 0
  end.

Definition completedTasks (counts : list TaskCountRow) : nat :=
  count_of "completed" counts.

Definition pendingTasks (counts : list TaskCountRow) : nat :=
  count_of "pending" counts.

(** *** Saving the profile *)

Record UpsertProfileArgs : Type := mkArgs {
  overrideAvatarUrl : option string
}.

(** The backend as the profile page acts on it: the [profiles] table and
    the log of requests sent so far. *)
Record Backend : Type := mkBackend {
  profiles : list Profiles.row;
  requests : list NetworkCall
}.

(** [upsertProfile] ([mutationFn] and its settlement); [name] and
    [avatarUrl] are the form state; [user] is the signed-in user's id and
    the identity of the request. *)
Definition upsertProfile (user : option UUID) (name avatarUrl : string)
    (args : option UpsertProfileArgs) (now : Timestamp) (new_id : UUID)
    (b : Backend) : MutationOutcome * Backend :=
  match user with
  | None => (Resolved, b)
  | Some u =>
      let finalAvatarUrl :=
        Js.nullish (match args with Some a => overrideAvatarUrl a | None => None end)
                   avatarUrl in
      let v := Profiles.mk_values u (Js.or_null name) (Js.or_null finalAvatarUrl) in
      let sent := requests b ++ [ProfilesUpsert v] in
      match Profiles.upsert user v now new_id (profiles b) with
      | Ok t => (Resolved, mkBackend t sent)
      | Err e => (Rejected e, mkBackend (profiles b) sent)
      end
  end.

(** *** Uploading an avatar *)

Record Ui : Type := mkUi {
  name : string;
  avatarUrl : string;
  uploadError : option string;
  isUploadingAvatar : bool
}.

(** What the handler reads from outside: the clock, the answer of the
    storage service to the upload, the public URL the client library
    derives from a path, and the server-side clock and fresh id of the
    profile write. *)
Record Env : Type := mkEnv {
  Date_now : Z;
  upload_failed : bool;
  getPublicUrl : string -> string;
  now : Timestamp;
  new_id : UUID
}.

(** [onChange] of the hidden file input. *)
Definition avatar_onChange (file : option File.t) (user : option UUID)
    (env : Env) (ui : Ui) (b : Backend) : Ui * Backend :=
  match file, user with
  | Some file, Some u =>
      let fileExt := Js.split_pop "." (File.name file) in
      let fileName := (u ++ "-" ++ Js.number_to_string (Date_now env) ++ "." ++ fileExt)%string in
      let filePath := (u ++ "/" ++ fileName)%string in
      let b1 := mkBackend (profiles b)
                  (requests b ++ [StorageUpload "avatars" filePath file]) in
      if upload_failed env then
        (mkUi (name ui) (avatarUrl ui)
              (Some "Could not upload avatar. Please try again.") false, b1)
      else
        let publicUrl := getPublicUrl env filePath in
        let '(outcome, b2) :=
          upsertProfile user (name ui) (avatarUrl ui)
            (Some (mkArgs (Some publicUrl))) (now env) (new_id env) b1 in
        (mkUi (name ui) publicUrl None
              (match outcome with Resolved => false | _ => true end), b2)
  | _, _ => (ui, b)
  end.

End Profile.

(** ** The earlier version of the profile page *)

Module ProfileEarlier.

Definition maxSizeMb : Z := 5.

(** [onChange] of the hidden file input, with its checks on the file. *)
Definition avatar_onChange (file : option File.t) (user : option UUID)
    (env : Profile.Env) (ui : Profile.Ui) (b : Profile.Backend)
    : Profile.Ui * Profile.Backend :=
  match file, user with
  | Some file, Some u =>
      if (File.size file >? maxSizeMb * 1024 * 1024)%Z then
        (Profile.mkUi (Profile.name ui) (Profile.avatarUrl ui)
           (Some ("Please choose an image smaller than "
                  ++ Js.number_to_string maxSizeMb ++ "MB.")%string)
           (Profile.isUploadingAvatar ui), b)
      else if negb (Js.startsWith (File.type file) "image/") then
        (Profile.mkUi (Profile.name ui) (Profile.avatarUrl ui)
           (Some "Please upload an image file (PNG, JPG, etc.).")
           (Profile.isUploadingAvatar ui), b)
      else
        let popped := Js.split_pop "." (File.name file) in
        let fileExt := if Js.truthy popped then popped else "png" in
        let filePath :=
          ("user-" ++ u ++ "/" ++ Js.number_to_string (Profile.Date_now env)
             ++ "." ++ fileExt)%string in
        let b1 := Profile.mkBackend (Profile.profiles b)
                    (Profile.requests b ++ [StorageUpload "avatars" filePath file]) in
        if Profile.upload_failed env then
          (Profile.mkUi (Profile.name ui) (Profile.avatarUrl ui)
             (Some "There was a problem uploading your avatar. Please try again.")
             false, b1)
        else
          let publicUrl := Profile.getPublicUrl env filePath in
          let '(_, b2) :=
            Profile.upsertProfile user (Profile.name ui) (Profile.avatarUrl ui)
              (Some (Profile.mkArgs (Some publicUrl)))
              (Profile.now env) (Profile.new_id env) b1 in
          (Profile.mkUi (Profile.name ui) publicUrl None false, b2)
  | _, _ => (ui, b)
  end.

End ProfileEarlier.

(** ** src/pages/Index.tsx: pagination controls and the task form *)

Module PaginationControls.

Inductive Item : Type :=
| Page (n : Z)
| ellipsis.

(** [handlePageChange]: the page handed to [onPageChange], if any. *)
Definition handlePageChange (page pageCount nextPage : Z) : option Z :=
  if (nextPage <? 1)%Z || (nextPage >? pageCount)%Z || (nextPage =? page)%Z
  then None else Some nextPage.

(** The page after a click that asks for [nextPage] ([onPageChange] is
    [setPage]). *)
Definition page_after (page pageCount nextPage : Z) : Z :=
  match handlePageChange page pageCount nextPage with
  | Some n => n
  | None => page
  end.

(** [i === 1 || i === pageCount || Math.abs(i - page) <= 1] *)
Definition shown (page pageCount i : Z) : bool :=
  (i =? 1)%Z || (i =? pageCount)%Z || (Z.abs (i - page) <=? 1)%Z.

(** [items[items.length - 1] !== "ellipsis"] *)
Definition last_is_ellipsis (items : list Item) : bool :=
  match rev items with
  | ellipsis :: _ => true
  | _ => false
  end.

(** Body of the loop for one [i]. *)
Definition push (page pageCount : Z) (items : list Item) (i : Z) : list Item :=
  if shown page pageCount i then items ++ [Page i]
  else if negb (last_is_ellipsis items) then items ++ [ellipsis]
  else items.

(** [for (let i = 1; i <= pageCount; i++)] *)
Definition indices (pageCount : Z) : list Z :=
  map Z.of_nat (seq 1 (Z.to_nat pageCount)).

Definition items (page pageCount : Z) : list Item :=
  fold_left (push page pageCount) (indices pageCount) [].

End PaginationControls.

Module TaskForm.

(** The three fields of the "Add Task" card. *)
Record t : Type := mk {
  title : string;
  description : string;
  status : TaskStatus
}.

(** [onSuccess] of [createTask]: the form is cleared. *)
Definition onSuccess (_ : t) : t := mk EmptyString EmptyString pending.

(** A click on "Add Task" followed by the settlement of the mutation: the
    outcome, the form and the table afterwards. *)
Definition submit (isPending : bool) (user : option UUID) (form : t)
    (now : Timestamp) (new_id : UUID) (tasks : list Tasks.row)
    : MutationOutcome * t * list Tasks.row :=
  let '(outcome, tasks') :=
    Index.addTask_click isPending user (title form) (description form)
      (status form) now new_id tasks in
  (outcome,
   match outcome with
   | Resolved => onSuccess form
   | _ => form
   end,
   tasks').

End TaskForm.

(** ** src/pages/Profile.tsx: the profile and recent-task queries, the form *)

Module ProfileView.
(** [interface Profile] *)
Record t : Type := mk {
  id : string;
  user_id : string;
  name : option string;
  avatar_url : option string
}.
End ProfileView.

Module RecentTask.
Record t : Type := mk {
  id : string;
  title : string;
  status : TaskStatus;
  created_at : Timestamp
}.
End RecentTask.

Module ProfileQueries.

(** [SELECT ... FROM profiles WHERE w] issued with identity [uid]. *)
Definition select (uid : option UUID) (w : Profiles.row -> bool)
    (t : list Profiles.row) : list Profiles.row :=
  filter w (filter (Profiles.Users_can_view_their_own_profile uid) t).

(** The answer of [.maybeSingle()]: no row is [data: null] without error,
    one row is that row, several rows are error PGRST116 with [data: null]. *)
Record Response (A : Type) : Type := mkResponse {
  data : option A;
  error : option string
}.
Arguments mkResponse {A} data error.
Arguments data {A} r.
Arguments error {A} r.

Definition maybeSingle {A} (rows : list A) : Response A :=
  match rows with
  | [] => mkResponse None None
  | [r] => mkResponse (Some r) None
  | _ :: _ :: _ => mkResponse None (Some "PGRST116")
  end.

(** What a [queryFn] does: it returns a value or throws the error. *)
Inductive Settled (A : Type) : Type :=
| Returned (a : A)
| Threw (code : string).
Arguments Returned {A} a.
Arguments Threw {A} code.

(** [.select("id, user_id, name, avatar_url")] *)
Definition select_columns (r : Profiles.row) : ProfileView.t :=
  ProfileView.mk (Profiles.id r) (Profiles.user_id r) (Profiles.name r)
                 (Profiles.avatar_url r).

(** [queryFn] of the "profile" query. *)
Definition profile_queryFn (user : option UUID) (profiles : list Profiles.row)
    : Settled (option ProfileView.t) :=
  match user with
  | None => Returned None
  | Some u =>
      let response :=
        maybeSingle
          (map select_columns
             (select user (fun r => String.eqb (Profiles.user_id r) u) profiles)) in
      match error response with
      | Some code =>
          if negb (String.eqb code "PGRST116") then Threw code
          else Returned (data response)
      | None => Returned (data response)
      end
  end.

(** [queryFn] of the "recent-tasks" query:
    [.order("created_at", { ascending: false }).limit(5)]. *)
Definition recent_queryFn (user : option UUID) (tasks : list Tasks.row)
    : list RecentTask.t :=
  match user with
  | None => []
  | Some u =>
      map (fun r => RecentTask.mk (Tasks.id r) (Tasks.title r) (Tasks.status r)
                      (Tasks.created_at r))
          (firstn 5
             (Tasks.order_by_created_at_desc
                (Tasks.select user (fun r => String.eqb (Tasks.user_id r) u) tasks)))
  end.

(** [s.split("@")[0]]: the text before the first "@". *)
Fixpoint before_at (s : string) : string :=
  match s with
  | EmptyString => EmptyString
  | String c s' => if Ascii.eqb c "@" then EmptyString else String c (before_at s')
  end.

(** The effect that fills the form once the profile or the user is known:
    [profile?.name ?? user?.email?.split("@")[0] ?? ""] and
    [profile?.avatar_url ?? ""].  [email] is the signed-in user's e-mail
    address, if any. *)
Definition initial_name (profile : option ProfileView.t) (email : option string)
    : string :=
  Js.nullish
    (match profile with Some p => ProfileView.name p | None => None end)
    (Js.nullish (option_map before_at email) EmptyString).

Definition initial_avatarUrl (profile : option ProfileView.t) : string :=
  Js.nullish
    (match profile with Some p => ProfileView.avatar_url p | None => None end)
    EmptyString.

(** [disabled={upsertProfile.isPending || (!name.trim() && !avatarUrl.trim())}] *)
Definition save_disabled (isPending : bool) (name avatarUrl : string) : bool :=
  isPending ||
  (negb (Js.truthy (Js.trim name)) && negb (Js.truthy (Js.trim avatarUrl))).

(** A click on "Save changes": [upsertProfile.mutate({})]. *)
Definition save_click (isPending : bool) (user : option UUID)
    (name avatarUrl : string) (now : Timestamp) (new_id : UUID)
    (b : Profile.Backend) : MutationOutcome * Profile.Backend :=
  if save_disabled isPending name avatarUrl then (NotInvoked, b)
  else Profile.upsertProfile user name avatarUrl (Some (Profile.mkArgs None))
         now new_id b.

(** The storage key the upload handler builds for a file. *)
Definition filePath (u : UUID) (Date_now : Z) (file : File.t) : string :=
  (u ++ "/" ++ u ++ "-" ++ Js.number_to_string Date_now ++ "."
     ++ Js.split_pop "." (File.name file))%string.

End ProfileQueries.

(** ** src/hooks/use-auth-state.tsx *)

Module AuthState.

Record User : Type := mkUser {
  id : UUID;
  email : option string
}.

Record Session : Type := mkSession {
  session_user : User
}.

Record State : Type := mkState {
  user : option User;
  session : option Session;
  loading : bool
}.


(** What can reach the hook: a call of the [onAuthStateChange] listener
    with the name of the event, or the settlement of [getSession()]. *)
Inductive Happening : Type :=
| AuthStateChange (event : string) (newSession : option Session)
| GetSessionResolved (s : option Session)
| GetSessionRejected.

Inductive Route : Type := Home | Auth.

(** [newSession?.user ?? null] *)
Definition user_of (s : option Session) : option User :=
  option_map session_user s.

(** The state after a happening and the navigation it triggers. *)
Definition step (st : State) (h : Happening) : State * option Route :=
  match h with
  | AuthStateChange event newSession =>
      (mkState (user_of newSession) newSession (loading st),
       if String.eqb event "SIGNED_IN" || String.eqb event "TOKEN_REFRESHED"
       then Some Home
       else if String.eqb event "SIGNED_OUT" then Some Auth
       else None)
  | GetSessionResolved s => (mkState (user_of s) s false, None)
  | GetSessionRejected => (mkState (user st) (session st) false, None)
  end.





End AuthState.

(** The page numbers and the number of ellipses among the items of the
    pagination control. *)
Fixpoint page_numbers (l : list PaginationControls.Item) : list Z :=
  match l with
  | [] => []
  | PaginationControls.Page n :: l' => n :: page_numbers l'
  | PaginationControls.ellipsis :: l' => page_numbers l'
  end.

Fixpoint count_ellipsis (l : list PaginationControls.Item) : nat :=
  match l with
  | [] => 0
  | PaginationControls.Page _ :: l' => count_ellipsis l'
  | PaginationControls.ellipsis :: l' => S (count_ellipsis l')
  end.

Definition adjacent_ellipses (l : list PaginationControls.Item) : Prop :=
  exists a b,
    l = a ++ PaginationControls.ellipsis :: PaginationControls.ellipsis :: b.

(** The control after the first [n] rounds of the loop. *)
Definition items_upto (page pageCount : Z) (n : nat) : list PaginationControls.Item :=
  fold_left (PaginationControls.push page pageCount) (map Z.of_nat (seq 1 n)) [].

(** An index that is hidden while its predecessor is shown. *)
Definition gap_start (page pageCount i : Z) : bool :=
  negb (PaginationControls.shown page pageCount i) &&
  PaginationControls.shown page pageCount (i - 1).

(** The row [updateTask] leaves in place of a row [r] it acts on. *)
Definition updated_task (task : Index.TaskUpdate) (now : Timestamp) (r : Tasks.row)
    : Tasks.row :=
  Tasks.mk (Tasks.id r) (Tasks.user_id r)
    (Js.nullish (Index.u_title task) (Tasks.title r))
    (Js.nullish (Index.u_description task) (Tasks.description r))
    (Js.nullish (Index.u_status task) (Tasks.status r))
    (Tasks.created_at r) now.

(** The rows [updateTask] acts on: the caller's rows with the given id. *)
Definition is_target (u : UUID) (id : string) (r : Tasks.row) : bool :=
  String.eqb u (Tasks.user_id r) && String.eqb (Tasks.id r) id.

Definition other_status (s : TaskStatus) : TaskStatus :=
  match s with pending => completed | completed => pending end.

(** "[a] is at least as new as [b]", on rows and on listed tasks. *)
Definition row_newer_eq (a b : Tasks.row) : Prop :=
  (Tasks.created_at b <= Tasks.created_at a)%Z.

Definition task_newer_eq (a b : Index.Task) : Prop :=
  (Index.created_at b <= Index.created_at a)%Z.

(** The tasks on page [page] of a query. *)
Definition page_data (uid : option UUID) (statusFilter : Index.StatusFilter)
    (search : string) (tasks : list Tasks.row) (page : Z) : list Index.Task :=
  match Index.queryFn uid statusFilter search page tasks with
  | Ok res => Index.data res
  | Err _ => []
  end.

(** The pages [1 .. n]. *)
Definition pages (n : Z) : list Z := map Z.of_nat (seq 1 (Z.to_nat n)).

(** [const { data: tasks = [] } = useQuery(...)] of the earlier dashboard. *)
Definition earlier_tasks (uid : option UUID) (tasks : list Tasks.row)
    : list Index.Task :=
  match IndexEarlier.queryFn uid tasks with
  | Ok d => d
  | Err _ => []
  end.

(** The columns the "recent-tasks" query selects. *)
Definition recent_columns (r : Tasks.row) : RecentTask.t :=
  RecentTask.mk (Tasks.id r) (Tasks.title r) (Tasks.status r) (Tasks.created_at r).

(** [const totalCount = tasksData?.count ?? 0] *)
Definition totalCount (uid : option UUID) (statusFilter : Index.StatusFilter)
    (search : string) (page : Z) (tasks : list Tasks.row) : nat :=
  match Index.queryFn uid statusFilter search page tasks with
  | Ok res => Index.count res
  | Err _ => 0
  end.

(** A string without the path separator. *)
Definition no_slash (s : string) : Prop :=
  ~ In "/"%char (list_ascii_of_string s).


Definition is_valid_image (file : File.t) : bool :=
  (File.size file <=? 5 * 1024 * 1024)%Z && Js.startsWith (File.type file) "image/".

(** The invariant the constraints of [profiles] maintain: ids are distinct
    and no two rows have the same [user_id]. *)
Definition profiles_ok (t : list Profiles.row) : Prop :=
  NoDup (map Profiles.id t) /\ NoDup (map Profiles.user_id t).

(** The rows of [t] that belong to [u]. *)
Definition profiles_of (u : UUID) (t : list Profiles.row) : list Profiles.row :=
  filter (fun r => String.eqb (Profiles.user_id r) u) t.

(** The row [.upsert] leaves in place of an existing row [x]. *)
Definition replaced (v : Profiles.values) (now : Timestamp) (x : Profiles.row)
    : Profiles.row :=
  Profiles.mk (Profiles.id x) (Profiles.v_user_id v) (Profiles.v_name v)
              (Profiles.v_avatar_url v) (Profiles.created_at x) now.

(** What [upsertProfile] sends for a signed-in user. *)
Definition profile_payload (u : UUID) (name avatarUrl : string)
    (args : option Profile.UpsertProfileArgs) : Profiles.values :=
  Profiles.mk_values u (Js.or_null name)
    (Js.or_null
       (Js.nullish (match args with
                    | Some a => Profile.overrideAvatarUrl a
                    | None => None
                    end) avatarUrl)).

(** Sum of the values of a record, and the number of rows of a status. *)
Definition total_of (o : Profile.JsRecord) : nat :=
  fold_right (fun e acc => snd e + acc) 0 o.

Definition occurrences (st : TaskStatus) (rows : list TaskStatus) : nat :=
  List.length (filter (TaskStatus_eqb st) rows).

(** The statuses the "task-counts" query fetches for [user]. *)
Definition fetched_statuses (user : option UUID) (tasks : list Tasks.row)
    : list TaskStatus :=
  match user with
  | None => []
  | Some u =>
      map Tasks.status
        (Tasks.select user (fun r => String.eqb (Tasks.user_id r) u) tasks)
  end.

(** ** Sample data used to exercise the statements *)

Module Sample.

Definition alice : UUID := "a11ce".
Definition bob : UUID := "b0b".

Definition milk : Tasks.row :=
  Tasks.mk "t1" alice "Buy milk" None pending 100 100.
Definition report : Tasks.row :=
  Tasks.mk "t2" alice "Write report" (Some "Due on Monday") completed 200 200.
Definition bobs : Tasks.row :=
  Tasks.mk "t3" bob "Buy milk" None pending 150 150.

Definition laundry : Tasks.row :=
  Tasks.mk "t4" alice "Laundry" None pending 50 50.

Definition tasks : list Tasks.row := [milk; bobs; report; laundry].

Definition profile : Profiles.row :=
  Profiles.mk "p1" alice (Some "Alice") None 10 10.

(** A 10 MiB PDF, a 10 MiB PNG and a small text file. *)
Definition big_pdf : File.t := File.mk "scan.pdf" 10485760 "application/pdf".
Definition big_png : File.t := File.mk "photo.png" 10485760 "image/png".
Definition notes : File.t := File.mk "notes.txt" 1200 "text/plain".
Definition small_png : File.t := File.mk "me.png" 1048576 "image/png".

Definition env : Profile.Env :=
  Profile.mkEnv 1700000000000 false
    (fun path => ("https://cdn.example/avatars/" ++ path)%string) 700 "p9".

Definition ui : Profile.Ui := Profile.mkUi "Alice" EmptyString None false.

Definition backend : Profile.Backend := Profile.mkBackend [profile] [].

End Sample.

(** * Properties *)

(** Decides a statement "every character of this literal satisfies ..." by
    going through the characters. *)
Ltac each_char :=
  let c := fresh "c" in
  let Hc := fresh "Hc" in
  intros c Hc; vm_compute in Hc;
  repeat (destruct Hc as [<-|Hc]; [reflexivity|]); destruct Hc.

(** ** Strings *)

Section TextFacts.

Lemma trimStart_empty (s : string) :
  Js.trimStart s = EmptyString <-> whitespace_only s.
Proof.
  unfold whitespace_only. induction s as [|c s IH]; simpl.
  - split; [intros _ c []|reflexivity].
  - destruct (Js.is_whitespace c) eqn:Hc.
    + rewrite IH. split.
      * intros H x [<-|Hx]; auto.
      * intros H x Hx. apply H. now right.
    + split; [discriminate|].
      intros H. specialize (H c (or_introl eq_refl)). congruence.
Qed.

Lemma trimEnd_empty (s : string) :
  Js.trimEnd s = EmptyString <-> whitespace_only s.
Proof.
  unfold whitespace_only. induction s as [|c s IH]; simpl.
  - split; [intros _ c []|reflexivity].
  - destruct (Js.trimEnd s) eqn:Ht.
    + destruct (Js.is_whitespace c) eqn:Hc.
      * split; [|reflexivity].
        intros _ x [<-|Hx]; auto. now apply IH.
      * split; [discriminate|].
        intros H. specialize (H c (or_introl eq_refl)). congruence.
    + split; [discriminate|].
      intros H. assert (String a s0 = EmptyString); [|discriminate].
      apply IH. intros x Hx. apply H. now right.
Qed.

Lemma trimStart_head (s : string) :
  match Js.trimStart s with
  | EmptyString => True
  | String c _ => Js.is_whitespace c = false
  end.
Proof.
  induction s as [|c s IH]; simpl; auto.
  destruct (Js.is_whitespace c) eqn:Hc; auto.
Qed.

(** [s.trim()] is falsy exactly for the strings made of white space. *)
Lemma trim_empty (s : string) :
  Js.trim s = EmptyString <-> whitespace_only s.
Proof.
  unfold Js.trim. rewrite trimEnd_empty, <- (trimStart_empty s).
  split.
  - intros H. pose proof (trimStart_head s) as Hh.
    revert H Hh. destruct (Js.trimStart s) as [|c t]; auto.
    intros H Hh. specialize (H c (or_introl eq_refl)). congruence.
  - intros ->. intros c [].
Qed.

Lemma truthy_false (s : string) : Js.truthy s = false <-> s = EmptyString.
Proof. destruct s; simpl; split; congruence. Qed.

Lemma startsWith_spec (s p : string) :
  Js.startsWith s p = true <-> exists post, s = (p ++ post)%string.
Proof.
  revert s. induction p as [|a p IH]; intros s; simpl.
  - split; [intros _; now exists s|reflexivity].
  - destruct s as [|b s].
    + split; [discriminate|intros [post H]; discriminate].
    + rewrite andb_true_iff, Ascii.eqb_eq, IH. split.
      * intros [-> [post ->]]. now exists post.
      * intros [post H]. injection H as -> ->. split; eauto.
Qed.

Lemma includes_spec (s sub : string) :
  Js.includes s sub = true <-> is_substring sub s.
Proof.
  unfold is_substring. induction s as [|c s IH]; simpl.
  - rewrite orb_false_r, startsWith_spec. split.
    + intros [post H]. now exists EmptyString, post.
    + intros [pre [post H]]. destruct pre; simpl in H; [eauto|discriminate].
  - rewrite orb_true_iff, startsWith_spec, IH. split.
    + intros [[post H]|[pre [post H]]].
      * now exists EmptyString, post.
      * exists (String c pre), post. simpl. now rewrite H.
    + intros [[|a pre] [post H]]; simpl in H.
      * left. eauto.
      * right. injection H as -> ->. eauto.
Qed.

Lemma toLowerCase_app (a b : string) :
  Js.toLowerCase (a ++ b) = (Js.toLowerCase a ++ Js.toLowerCase b)%string.
Proof. induction a; simpl; congruence. Qed.

End TextFacts.

(** ** ILIKE with a pattern [%v%] *)

Section LikeFacts.

Lemma plain_cons (c : ascii) (s : string) :
  plain (String c s) <-> is_filter_special c = false /\ plain s.
Proof.
  unfold plain. simpl. split.
  - intros H. split; [apply H; now left|intros x Hx; apply H; now right].
  - intros [Hc Hs] x [<-|Hx]; auto.
Qed.

Lemma lower_char_special (c : ascii) :
  is_filter_special (Js.lower_char c) = is_filter_special c.
Proof.
  destruct c as [[] [] [] [] [] [] [] []]; reflexivity.
Qed.

Lemma plain_toLowerCase (v : string) : plain v -> plain (Js.toLowerCase v).
Proof.
  induction v as [|c v IH]; simpl; auto.
  rewrite !plain_cons, lower_char_special. intros [Hc Hv]. auto.
Qed.

Lemma special_cases (c : ascii) :
  is_filter_special c = false ->
  Ascii.eqb c "%" = false /\ Ascii.eqb c "_" = false /\
  Ascii.eqb c "\" = false /\ Ascii.eqb c "*" = false.
Proof.
  unfold is_filter_special. simpl. intros H.
  repeat (apply orb_false_elim in H; destruct H as [? H]). auto.
Qed.

Lemma star_alias_plain (v rest : string) :
  plain v -> Sql.star_alias (v ++ rest) = (v ++ Sql.star_alias rest)%string.
Proof.
  induction v as [|c v IH]; simpl; auto.
  rewrite plain_cons. intros [Hc Hv].
  apply special_cases in Hc. destruct Hc as (_ & _ & _ & ->).
  now rewrite IH.
Qed.

Lemma like_tokens_plain (w rest : string) :
  plain w -> Sql.like_tokens (w ++ rest) = lits w ++ Sql.like_tokens rest.
Proof.
  induction w as [|c w IH]; simpl; auto.
  rewrite plain_cons. intros [Hc Hw].
  apply special_cases in Hc. destruct Hc as (-> & -> & -> & _).
  unfold lits. simpl. f_equal. now apply IH.
Qed.

Lemma like_match_any (q : list Sql.like_token) (s : string) :
  Sql.like_match (Sql.AnySeq :: q) s =
  Sql.like_match q s ||
  match s with
  | EmptyString => false
  | String _ s' => Sql.like_match (Sql.AnySeq :: q) s'
  end.
Proof. destruct s; reflexivity. Qed.

Lemma like_match_rest (s : string) : Sql.like_match [Sql.AnySeq] s = true.
Proof.
  induction s as [|c s IH]; [reflexivity|].
  rewrite like_match_any. rewrite IH. apply orb_true_r.
Qed.

Lemma like_match_prefix (w s : string) :
  Sql.like_match (lits w ++ [Sql.AnySeq]) s = Js.startsWith s w.
Proof.
  revert s. induction w as [|a w IH]; intros s.
  - apply like_match_rest.
  - destruct s as [|b s]; [reflexivity|].
    unfold lits in *. simpl. now rewrite IH.
Qed.

Lemma like_match_infix (w s : string) :
  Sql.like_match (Sql.AnySeq :: lits w ++ [Sql.AnySeq]) s = Js.includes s w.
Proof.
  induction s as [|c s IH].
  - rewrite like_match_any, like_match_prefix. reflexivity.
  - rewrite like_match_any, like_match_prefix, IH. reflexivity.
Qed.

(** For a value without pattern characters, [col ILIKE '%v%'] is
    case-insensitive containment. *)
Lemma ilike_contains (s v : string) :
  plain v ->
  Sql.ilike s (Sql.star_alias ("%" ++ v ++ "%")) =
  Js.includes (Js.toLowerCase s) (Js.toLowerCase v).
Proof.
  intros Hv. unfold Sql.ilike.
  change ("%" ++ v ++ "%")%string with (String "%" (v ++ "%")).
  change (Sql.star_alias (String "%" (v ++ "%")))
    with (String "%" (Sql.star_alias (v ++ "%"))).
  rewrite (star_alias_plain v "%" Hv).
  change (Sql.star_alias "%") with "%".
  change (Js.toLowerCase (String "%" (v ++ "%")))
    with (String "%" (Js.toLowerCase (v ++ "%"))).
  rewrite toLowerCase_app.
  change (Sql.like_tokens (String "%" (Js.toLowerCase v ++ Js.toLowerCase "%")))
    with (Sql.AnySeq :: Sql.like_tokens (Js.toLowerCase v ++ "%")).
  rewrite (like_tokens_plain (Js.toLowerCase v) "%" (plain_toLowerCase v Hv)).
  apply like_match_infix.
Qed.

End LikeFacts.

(** ** Lists, ordering and slices *)

Section ListFacts.

Lemma distinct_NoDup (l : list string) : distinct l = true <-> NoDup l.
Proof.
  induction l as [|x l IH]; simpl.
  - split; [constructor|reflexivity].
  - rewrite andb_true_iff, negb_true_iff, IH. split.
    + intros [Hx Hl]. constructor; auto.
      intros Hin. assert (existsb (String.eqb x) l = true); [|congruence].
      apply existsb_exists. exists x. split; auto. apply String.eqb_refl.
    + intros Hnd. inversion Hnd as [|? ? Hx Hl]; subst. split; auto.
      destruct (existsb (String.eqb x) l) eqn:E; auto.
      apply existsb_exists in E. destruct E as [y [Hy Hxy]].
      apply String.eqb_eq in Hxy. subst y. contradiction.
Qed.

Lemma insert_desc_In (r x : Tasks.row) (l : list Tasks.row) :
  In x (Tasks.insert_desc r l) <-> x = r \/ In x l.
Proof.
  induction l as [|y l IH]; simpl.
  - intuition.
  - destruct (Tasks.created_at y <=? Tasks.created_at r)%Z; simpl.
    + intuition.
    + rewrite IH. intuition.
Qed.

Lemma order_In (x : Tasks.row) (l : list Tasks.row) :
  In x (Tasks.order_by_created_at_desc l) <-> In x l.
Proof.
  unfold Tasks.order_by_created_at_desc.
  induction l as [|y l IH]; simpl; [tauto|].
  rewrite insert_desc_In, IH. intuition.
Qed.

Lemma insert_desc_length (r : Tasks.row) (l : list Tasks.row) :
  List.length (Tasks.insert_desc r l) = S (List.length l).
Proof.
  induction l as [|y l IH]; simpl; auto.
  destruct (Tasks.created_at y <=? Tasks.created_at r)%Z; simpl; auto.
Qed.

Lemma order_length (l : list Tasks.row) :
  List.length (Tasks.order_by_created_at_desc l) = List.length l.
Proof.
  unfold Tasks.order_by_created_at_desc.
  induction l as [|y l IH]; simpl; auto.
  now rewrite insert_desc_length, IH.
Qed.

Lemma insert_desc_sorted (r : Tasks.row) (l : list Tasks.row) :
  newest_first l -> newest_first (Tasks.insert_desc r l).
Proof.
  induction 1 as [|y l Hy Hl IH]; simpl.
  - constructor; [intros x []|constructor].
  - destruct (Tasks.created_at y <=? Tasks.created_at r)%Z eqn:E.
    + constructor; [|now constructor].
      apply Z.leb_le in E. intros x [<-|Hx]; auto.
      specialize (Hy x Hx). lia.
    + apply Z.leb_gt in E. constructor; auto.
      intros x Hx. apply insert_desc_In in Hx. destruct Hx as [->|Hx]; auto. lia.
Qed.

Lemma order_sorted (l : list Tasks.row) :
  newest_first (Tasks.order_by_created_at_desc l).
Proof.
  unfold Tasks.order_by_created_at_desc.
  induction l; simpl; [constructor|now apply insert_desc_sorted].
Qed.

Lemma range_In {A} (from to : Z) (x : A) (l : list A) :
  In x (Sql.range from to l) -> In x l.
Proof.
  unfold Sql.range. intros H.
  rewrite <- (firstn_skipn (Z.to_nat from) l). apply in_or_app. right.
  rewrite <- (firstn_skipn (Z.to_nat (to - from + 1)) (skipn (Z.to_nat from) l)).
  apply in_or_app. now left.
Qed.

Lemma select_In (uid : option UUID) (w : Tasks.row -> bool)
    (t : list Tasks.row) (r : Tasks.row) :
  In r (Tasks.select uid w t) <->
  In r t /\ Sql.auth_uid_eq uid (Tasks.user_id r) = true /\ w r = true.
Proof.
  unfold Tasks.select, Tasks.Users_can_view_their_own_tasks.
  rewrite !filter_In. tauto.
Qed.

Lemma auth_uid_eq_true (uid : option UUID) (o : UUID) :
  Sql.auth_uid_eq uid o = true <-> uid = Some o.
Proof.
  destruct uid as [u|]; simpl.
  - rewrite String.eqb_eq. split; congruence.
  - split; discriminate.
Qed.

Lemma filter_idem {A} (f : A -> bool) (l : list A) :
  filter f (filter f l) = filter f l.
Proof.
  induction l as [|x l IH]; simpl; auto.
  destruct (f x) eqn:E; simpl; rewrite ?E, IH; auto.
Qed.

End ListFacts.

(** ** Owner scoping of the task list *)

Lemma matching_owned (uid : option UUID) (f : Index.StatusFilter)
    (search : string) (tasks : list Tasks.row) :
  Index.matching uid f search
    (filter (fun r => Sql.auth_uid_eq uid (Tasks.user_id r)) tasks) =
  Index.matching uid f search tasks.
Proof.
  unfold Index.matching, Tasks.select, Tasks.Users_can_view_their_own_tasks.
  now rewrite filter_idem.
Qed.

Lemma matching_In (uid : option UUID) (f : Index.StatusFilter)
    (search : string) (tasks : list Tasks.row) (r : Tasks.row) :
  In r (Index.matching uid f search tasks) <->
  In r tasks /\ uid = Some (Tasks.user_id r) /\
  Index.status_clause f r = true /\ Index.search_clause search r = true.
Proof.
  unfold Index.matching.
  rewrite order_In, select_In, auth_uid_eq_true, andb_true_iff. tauto.
Qed.

Lemma NoDup_map_eq {A B} (f : A -> B) (l : list A) (a b : A) :
  NoDup (map f l) -> In a l -> In b l -> f a = f b -> a = b.
Proof.
  induction l as [|x l IH]; simpl; [tauto|].
  intros Hnd Ha Hb Hf. inversion Hnd as [|? ? Hx Hl]; subst.
  destruct Ha as [->|Ha], Hb as [->|Hb]; auto.
  - exfalso. apply Hx. rewrite Hf. now apply in_map.
  - exfalso. apply Hx. rewrite <- Hf. now apply in_map.
Qed.

(** C1: every task returned by the task query is the projection of a stored
    row whose [user_id] is the caller's identity; a row of another owner is
    never returned (ids being the primary key); the query does not fail,
    and its result is the one obtained from the table with every row of
    another owner removed. *)
Theorem listTasks_only_own_rows :
  forall (uid : option UUID) (statusFilter : Index.StatusFilter)
         (search : string) (page : Z) (tasks : list Tasks.row),
    Index.queryFn uid statusFilter search page
      (filter (fun r => Sql.auth_uid_eq uid (Tasks.user_id r)) tasks) =
    Index.queryFn uid statusFilter search page tasks /\
    exists res,
      Index.queryFn uid statusFilter search page tasks = Ok res /\
      (forall t, In t (Index.data res) ->
         exists r, In r tasks /\ Index.select_columns r = t /\
                   uid = Some (Tasks.user_id r)) /\
      (NoDup (map Tasks.id tasks) ->
       forall r, In r tasks -> uid <> Some (Tasks.user_id r) ->
         ~ In (Index.select_columns r) (Index.data res)).
Proof.
  intros uid f search page tasks. split.
  - unfold Index.queryFn. now rewrite matching_owned.
  - eexists. split; [reflexivity|].
    assert (forall t,
              In t (map Index.select_columns
                      (Sql.range ((page - 1) * Index.pageSize)
                         ((page - 1) * Index.pageSize + Index.pageSize - 1)
                         (Index.matching uid f search tasks))) ->
              exists r, In r tasks /\ Index.select_columns r = t /\
                        uid = Some (Tasks.user_id r)) as Hown.
    { intros t Ht. apply in_map_iff in Ht. destruct Ht as [r [Hr Hin]].
      apply range_In in Hin. apply matching_In in Hin.
      exists r. tauto. }
    split; [exact Hown|].
    intros Hnd r Hr Hforeign Hin. simpl in Hin.
    destruct (Hown _ Hin) as [r' [Hr' [Hproj Hu]]].
    assert (r' = r) as ->.
    { apply (NoDup_map_eq Tasks.id tasks); auto.
      change (Index.id (Index.select_columns r') = Index.id (Index.select_columns r)).
      now rewrite Hproj. }
    contradiction.
Qed.

Lemma listTasks_only_own_rows_witness :
  (exists r, In r Sample.tasks /\
             Index.select_columns r = Index.select_columns Sample.milk /\
             Some Sample.alice = Some (Tasks.user_id r)) /\
  (forall res,
     Index.queryFn (Some Sample.alice) Index.all EmptyString 1 Sample.tasks = Ok res ->
     ~ In (Index.select_columns Sample.bobs) (Index.data res)).
Proof.
  destruct (listTasks_only_own_rows (Some Sample.alice) Index.all EmptyString 1
              Sample.tasks) as [_ [res [Hq [Hres Hforeign]]]].
  split.
  - unfold Index.queryFn in Hq. injection Hq as <-.
    apply Hres. vm_compute. right. now left.
  - intros res' Hq'. rewrite Hq in Hq'. injection Hq' as <-.
    apply Hforeign.
    + apply distinct_NoDup. reflexivity.
    + simpl. tauto.
    + discriminate.
Defined.

(** ** Page count *)

Lemma ceil_tenth (total : Z) :
  Qceiling (inject_Z total / inject_Z Index.pageSize)%Q = ((total + 9) / 10)%Z.
Proof.
  unfold Qceiling, Qfloor, Index.pageSize, inject_Z, Qdiv, Qinv, Qmult, Qopp.
  simpl Qnum. simpl Qden.
  rewrite Z.mul_1_r.
  change (Z.pos (1 * 10)) with 10%Z.
  apply Z.div_unique with (r := (9 - (- total) mod 10)%Z).
  - left. pose proof (Z.mod_pos_bound (- total) 10). lia.
  - pose proof (Z.div_mod (- total) 10). lia.
Qed.

Lemma pageCount_eq (total : Z) :
  Index.pageCount total = Z.max 1 ((total + 9) / 10)%Z.
Proof. unfold Index.pageCount. now rewrite ceil_tenth. Qed.

(** C3: when no task matches, the task query returns the empty list with
    count 0 and the page count is 1; for a count of at least 1 the page
    count is the ceiling of count / pageSize, the least number of pages of
    [pageSize] rows that hold [total] rows. *)
Theorem pageCount_is_ceiling_at_least_one :
  forall (uid : option UUID) (statusFilter : Index.StatusFilter)
         (search : string) (page : Z) (tasks : list Tasks.row),
    (Index.matching uid statusFilter search tasks = [] ->
     Index.queryFn uid statusFilter search page tasks =
       Ok (Index.mkQueryData [] 0)) /\
    Index.pageCount 0 = 1%Z /\
    forall total : Z, (1 <= total)%Z ->
      Index.pageCount total =
        Qceiling (inject_Z total / inject_Z Index.pageSize)%Q /\
      (1 <= Index.pageCount total)%Z /\
      ((Index.pageCount total - 1) * Index.pageSize < total
       <= Index.pageCount total * Index.pageSize)%Z.
Proof.
  intros uid f search page tasks. split; [|split].
  - intros H. unfold Index.queryFn. rewrite H.
    unfold Sql.range. now rewrite skipn_nil, firstn_nil.
  - reflexivity.
  - intros total Ht.
    rewrite ceil_tenth. rewrite pageCount_eq. unfold Index.pageSize.
    assert (1 <= (total + 9) / 10)%Z as H1.
    { apply Z.div_le_lower_bound; lia. }
    rewrite Z.max_r by lia.
    pose proof (Z.div_mod (total + 9) 10).
    pose proof (Z.mod_pos_bound (total + 9) 10).
    repeat split; lia.
Qed.

Lemma pageCount_is_ceiling_at_least_one_witness :
  Index.pageCount 25 = 3%Z /\
  ((Index.pageCount 25 - 1) * Index.pageSize < 25
   <= Index.pageCount 25 * Index.pageSize)%Z /\
  Index.queryFn (Some Sample.bob) (Index.only completed) EmptyString 1 Sample.tasks =
    Ok (Index.mkQueryData [] 0).
Proof.
  destruct (pageCount_is_ceiling_at_least_one (Some Sample.bob)
              (Index.only completed) EmptyString 1 Sample.tasks) as [H0 [_ H]].
  destruct (H 25%Z ltac:(lia)) as [H1 [_ H3]].
  split; [|split].
  - rewrite H1. reflexivity.
  - exact H3.
  - apply H0. reflexivity.
Defined.

(** ** Status filter and search *)

Lemma page_of_index {A} (l : list A) (n : nat) (x : A) :
  nth_error l n = Some x ->
  let page := (Z.of_nat (n / 10) + 1)%Z in
  In x (Sql.range ((page - 1) * Index.pageSize)
                  ((page - 1) * Index.pageSize + Index.pageSize - 1) l).
Proof.
  intros Hn page. unfold Sql.range, Index.pageSize, page.
  replace (Z.to_nat ((Z.of_nat (n / 10) + 1 - 1) * 10)) with (10 * (n / 10))
    by lia.
  replace (Z.to_nat ((Z.of_nat (n / 10) + 1 - 1) * 10 + 10 - 1 -
                     (Z.of_nat (n / 10) + 1 - 1) * 10 + 1)) with 10 by lia.
  apply nth_error_In with (n := n mod 10).
  rewrite nth_error_firstn.
  pose proof (Nat.mod_upper_bound n 10 ltac:(lia)) as Hlt.
  apply Nat.ltb_lt in Hlt. rewrite Hlt.
  rewrite nth_error_skipn, <- Nat.div_mod_eq. exact Hn.
Qed.

Lemma search_clause_blank (search : string) (r : Tasks.row) :
  Js.trim search = EmptyString -> Index.search_clause search r = true.
Proof. unfold Index.search_clause. now intros ->. Qed.

Lemma search_clause_contains (search : string) (r : Tasks.row) :
  Js.trim search <> EmptyString -> plain (Js.trim search) ->
  Index.search_clause search r = true ->
  is_substring (Js.toLowerCase (Js.trim search)) (Js.toLowerCase (Tasks.title r)) \/
  exists d, Tasks.description r = Some d /\
            is_substring (Js.toLowerCase (Js.trim search)) (Js.toLowerCase d).
Proof.
  intros Hne Hplain. unfold Index.search_clause.
  destruct (Js.truthy (Js.trim search)) eqn:E.
  - unfold Sql.ilike_filter. rewrite orb_true_iff.
    intros [H|H].
    + left. rewrite ilike_contains in H by assumption. now apply includes_spec.
    + right. destruct (Tasks.description r) as [d|]; [|discriminate].
      exists d. split; auto.
      rewrite ilike_contains in H by assumption. now apply includes_spec.
  - apply truthy_false in E. contradiction.
Qed.

(** C4 (amended): every task returned under a status filter has that
    status; when the trimmed search text is non-empty and free of filter
    characters, every returned task contains it, compared without case, in
    its title or its description; with filter "all" and a search text that
    trims to nothing the count is the number of rows the caller owns and
    every such row is on one of the pages. *)
Theorem listTasks_status_and_search :
  forall (uid : option UUID) (statusFilter : Index.StatusFilter)
         (search : string) (page : Z) (tasks : list Tasks.row)
         (res : Index.QueryData),
    Index.queryFn uid statusFilter search page tasks = Ok res ->
    (forall t, In t (Index.data res) ->
       (forall s, statusFilter = Index.only s -> Index.status t = s) /\
       (Js.trim search <> EmptyString -> plain (Js.trim search) ->
        is_substring (Js.toLowerCase (Js.trim search))
                     (Js.toLowerCase (Index.title t)) \/
        exists d, Index.description t = Some d /\
                  is_substring (Js.toLowerCase (Js.trim search))
                               (Js.toLowerCase d))) /\
    (statusFilter = Index.all -> Js.trim search = EmptyString ->
     Index.count res =
       List.length (filter (fun r => Sql.auth_uid_eq uid (Tasks.user_id r)) tasks) /\
     forall r, In r tasks -> uid = Some (Tasks.user_id r) ->
       exists page' res',
         (1 <= page')%Z /\
         Index.queryFn uid statusFilter search page' tasks = Ok res' /\
         In (Index.select_columns r) (Index.data res')).
Proof.
  intros uid f search page tasks res Hq.
  unfold Index.queryFn in Hq. injection Hq as <-. simpl. split.
  - intros t Ht. apply in_map_iff in Ht. destruct Ht as [r [<- Hin]].
    apply range_In in Hin. apply matching_In in Hin.
    destruct Hin as (_ & _ & Hst & Hse). split.
    + intros s ->. simpl in Hst. simpl.
      destruct (Tasks.status r), s; simpl in Hst; congruence.
    + intros Hne Hplain. simpl.
      now apply search_clause_contains.
  - intros -> Hblank. split.
    + unfold Index.matching, Tasks.select. rewrite order_length.
      rewrite (filter_ext _ (fun _ => true)), filter_true; [reflexivity|].
      intros r. simpl. now apply search_clause_blank.
    + intros r Hr Hown.
      assert (In r (Index.matching uid Index.all search tasks)) as Hin.
      { apply matching_In. repeat split; auto. now apply search_clause_blank. }
      apply In_nth_error in Hin. destruct Hin as [n Hn].
      exists (Z.of_nat (n / 10) + 1)%Z. eexists. split; [lia|].
      split; [reflexivity|]. simpl.
      apply in_map. now apply page_of_index.
Qed.

Lemma listTasks_status_and_search_witness :
  (Index.status (Index.select_columns Sample.milk) = pending /\
   (is_substring (Js.toLowerCase (Js.trim " Milk "))
                 (Js.toLowerCase (Index.title (Index.select_columns Sample.milk))) \/
    exists d, Index.description (Index.select_columns Sample.milk) = Some d /\
              is_substring (Js.toLowerCase (Js.trim " Milk ")) (Js.toLowerCase d))) /\
  (exists page' res',
      (1 <= page')%Z /\
      Index.queryFn (Some Sample.alice) Index.all " " page' Sample.tasks = Ok res' /\
      In (Index.select_columns Sample.laundry) (Index.data res')).
Proof.
  split.
  - pose proof (listTasks_status_and_search (Some Sample.alice)
                  (Index.only pending) " Milk " 1 Sample.tasks
                  (Index.mkQueryData [Index.select_columns Sample.milk] 1)
                  eq_refl) as [H _].
    destruct (H (Index.select_columns Sample.milk) (or_introl eq_refl)) as [Hs Hc].
    split; [exact (Hs pending eq_refl)|].
    apply Hc.
    + vm_compute. discriminate.
    + each_char.
  - pose proof (listTasks_status_and_search (Some Sample.alice)
                  Index.all " " 1 Sample.tasks _ eq_refl) as [_ H].
    destruct (H eq_refl eq_refl) as [_ Hall].
    apply (Hall Sample.laundry).
    + simpl. tauto.
    + reflexivity.
Defined.

(** C4, as stated, fails: a search text of one space is not empty, yet no
    search filter is applied and the task "Laundry", which contains no
    space, is returned. *)
Lemma listTasks_blank_search_returns_all :
  exists res t,
    Index.queryFn (Some Sample.alice) Index.all " " 1 Sample.tasks = Ok res /\
    " " <> EmptyString /\
    In t (Index.data res) /\
    ~ is_substring (Js.toLowerCase " ") (Js.toLowerCase (Index.title t)) /\
    ~ (exists d, Index.description t = Some d /\
                 is_substring (Js.toLowerCase " ") (Js.toLowerCase d)).
Proof.
  eexists. exists (Index.select_columns Sample.laundry).
  split; [reflexivity|]. split; [discriminate|]. split.
  - vm_compute. tauto.
  - split.
    + intros H. apply includes_spec in H. vm_compute in H. discriminate.
    + intros [d [H _]]. discriminate.
Qed.

(** The search value is trimmed before it is matched: "milk " with a
    trailing space finds "Buy milk", which does not contain "milk ". *)
Lemma listTasks_search_is_trimmed :
  Index.queryFn (Some Sample.alice) Index.all "milk " 1 Sample.tasks =
    Ok (Index.mkQueryData [Index.select_columns Sample.milk] 1) /\
  Js.includes (Js.toLowerCase "Buy milk") (Js.toLowerCase "milk ") = false.
Proof. split; reflexivity. Qed.

(** The search value is a pattern: "_" stands for any one character, so
    every task with a non-empty title or description is found. *)
Lemma listTasks_search_is_a_pattern :
  Index.queryFn (Some Sample.alice) (Index.only pending) "_" 1 Sample.tasks =
    Ok (Index.mkQueryData
          [Index.select_columns Sample.milk; Index.select_columns Sample.laundry] 2) /\
  Js.includes (Js.toLowerCase "Laundry") (Js.toLowerCase "_") = false.
Proof. split; reflexivity. Qed.

(** The earlier dashboard filters in the client with the same outcome,
    except that it matches the search text as typed. *)
Lemma filteredTasks_sound (tasks : list Index.Task) (search : string)
    (statusFilter : Index.StatusFilter) (t : Index.Task) :
  In t (IndexEarlier.filteredTasks tasks search statusFilter) ->
  In t tasks /\
  (forall s, statusFilter = Index.only s -> Index.status t = s) /\
  (Js.trim search <> EmptyString ->
   is_substring (Js.toLowerCase search) (Js.toLowerCase (Index.title t)) \/
   is_substring (Js.toLowerCase search)
     (Js.toLowerCase (Js.nullish (Index.description t) EmptyString))).
Proof.
  unfold IndexEarlier.filteredTasks. rewrite filter_In, andb_true_iff.
  intros [Hin [Hse Hst]]. split; auto. split.
  - intros s ->. simpl in Hst.
    destruct (Index.status t), s; simpl in Hst; congruence.
  - intros Hne. unfold IndexEarlier.matchesSearch in Hse.
    rewrite !orb_true_iff, !includes_spec in Hse.
    destruct Hse as [[H|H]|H]; auto.
    apply Nat.eqb_eq in H. destruct (Js.trim search); [congruence|discriminate].
Qed.

Lemma filteredTasks_blank (tasks : list Index.Task) (search : string) :
  Js.trim search = EmptyString ->
  IndexEarlier.filteredTasks tasks search Index.all = tasks.
Proof.
  intros H. unfold IndexEarlier.filteredTasks.
  rewrite (filter_ext _ (fun _ => true)), filter_true; [reflexivity|].
  intros t. unfold IndexEarlier.matchesSearch. now rewrite H.
Qed.

Lemma filteredTasks_blank_search_returns_all :
  IndexEarlier.filteredTasks [Index.select_columns Sample.laundry] " " Index.all =
    [Index.select_columns Sample.laundry].
Proof. reflexivity. Qed.

(** ** Creating a task *)

Lemma NoDup_snoc {A} (l : list A) (x : A) :
  NoDup l -> ~ In x l -> NoDup (l ++ [x]).
Proof.
  induction 1 as [|y l Hy Hl IH]; simpl; intros Hx.
  - constructor; [intros []|constructor].
  - constructor.
    + rewrite in_app_iff. simpl. intros [H|[H|[]]]; [contradiction|].
      apply Hx. now left.
    + apply IH. intros H. apply Hx. now right.
Qed.

Lemma distinct_snoc (l : list string) (x : string) :
  NoDup l -> ~ In x l -> distinct (l ++ [x]) = true.
Proof. intros Hl Hx. apply distinct_NoDup. now apply NoDup_snoc. Qed.

Lemma createTask_signed_in (u : UUID) (title description : string)
    (status : TaskStatus) (now : Timestamp) (new_id : UUID)
    (tasks : list Tasks.row) :
  NoDup (map Tasks.id tasks) -> ~ In new_id (map Tasks.id tasks) ->
  Index.createTask (Some u) title description status now new_id tasks =
    (Resolved,
     tasks ++ [Tasks.mk new_id u title (Js.or_null description) status now now]).
Proof.
  intros Hnd Hfresh.
  unfold Index.createTask, Index.createTask_mutationFn, Tasks.insert.
  cbn [Tasks.v_user_id Tasks.v_title Tasks.v_description Tasks.v_status Js.nullish].
  unfold Tasks.Users_can_create_their_own_tasks. cbn [Tasks.user_id Sql.auth_uid_eq].
  rewrite String.eqb_refl.
  unfold Tasks.constraints. rewrite map_app. cbn [map Tasks.id].
  now rewrite distinct_snoc.
Qed.

(** C2 (amended): while the title is empty or made of white space the
    "Add Task" button is disabled, so a click issues no createTask: no row
    is inserted and no error is raised.  createTask itself does not look at
    the title.  For a signed-in user and a fresh id it inserts one row and
    resolves; so does the click when the title has a character that is not
    white space and no creation is pending. *)
Theorem addTask_title_guard :
  forall (isPending : bool) (user : option UUID) (title description : string)
         (status : TaskStatus) (now : Timestamp) (new_id : UUID)
         (tasks : list Tasks.row),
    (whitespace_only title ->
     Index.addTask_click isPending user title description status now new_id tasks =
       (NotInvoked, tasks)) /\
    (forall u, user = Some u ->
       NoDup (map Tasks.id tasks) -> ~ In new_id (map Tasks.id tasks) ->
       Index.createTask user title description status now new_id tasks =
         (Resolved,
          tasks ++ [Tasks.mk new_id u title (Js.or_null description) status now now]) /\
       (~ whitespace_only title -> isPending = false ->
        Index.addTask_click isPending user title description status now new_id tasks =
          (Resolved,
           tasks ++ [Tasks.mk new_id u title (Js.or_null description) status now now]))).
Proof.
  intros isPending user title description status now new_id tasks. split.
  - intros Hw. apply trim_empty in Hw.
    unfold Index.addTask_click, Index.addTask_disabled. rewrite Hw. simpl.
    now rewrite orb_true_r.
  - intros u -> Hnd Hfresh. split.
    + now apply createTask_signed_in.
    + intros Hw ->.
      unfold Index.addTask_click, Index.addTask_disabled.
      destruct (Js.truthy (Js.trim title)) eqn:E; simpl.
      * now apply createTask_signed_in.
      * exfalso. apply Hw. apply trim_empty. now apply truthy_false.
Qed.

Lemma addTask_title_guard_witness :
  Index.addTask_click false (Some Sample.alice) "   " "x" pending 300 "t9" Sample.tasks =
    (NotInvoked, Sample.tasks) /\
  Index.addTask_click false (Some Sample.alice) "Buy milk" EmptyString pending 300 "t9"
      Sample.tasks =
    (Resolved,
     Sample.tasks ++ [Tasks.mk "t9" Sample.alice "Buy milk" None pending 300 300]).
Proof.
  split.
  - apply (addTask_title_guard false (Some Sample.alice) "   " "x" pending 300 "t9"
             Sample.tasks).
    each_char.
  - apply (addTask_title_guard false (Some Sample.alice) "Buy milk" EmptyString pending
             300 "t9" Sample.tasks) with (u := Sample.alice).
    + reflexivity.
    + apply distinct_NoDup. reflexivity.
    + vm_compute. intuition discriminate.
    + intros H. specialize (H "B"%char (or_introl eq_refl)). discriminate.
    + reflexivity.
Defined.

(** C2, as stated, fails: with an empty title createTask inserts a row and
    resolves, and a click on the disabled button raises no error. *)
Lemma createTask_empty_title_inserts :
  Index.createTask (Some Sample.alice) EmptyString EmptyString pending 300 "t9" [] =
    (Resolved, [Tasks.mk "t9" Sample.alice EmptyString None pending 300 300]) /\
  forall e,
    fst (Index.addTask_click false (Some Sample.alice) EmptyString EmptyString pending
           300 "t9" []) <> Rejected e.
Proof. split; [reflexivity|]. intros e. vm_compute. discriminate. Qed.

(** ** Deleting a task *)

(** C7 (amended): deleteTask never fails.  It removes exactly the rows with
    the given id that the caller owns; when there is none (the row is
    absent, already deleted, or owned by someone else) the table is
    unchanged and the call still resolves. *)
Theorem deleteTask_resolves :
  forall (user : option UUID) (id : string) (tasks : list Tasks.row),
    fst (Index.deleteTask user id tasks) = Resolved /\
    (forall r, In r (snd (Index.deleteTask user id tasks)) <->
               In r tasks /\ ~ (user = Some (Tasks.user_id r) /\ Tasks.id r = id)) /\
    ((forall r, In r tasks -> user = Some (Tasks.user_id r) -> Tasks.id r <> id) ->
     Index.deleteTask user id tasks = (Resolved, tasks)) /\
    Index.deleteTask user id (snd (Index.deleteTask user id tasks)) =
      (Resolved, snd (Index.deleteTask user id tasks)).
Proof.
  intros user id tasks.
  unfold Index.deleteTask, Tasks.delete, settle,
    Tasks.Users_can_delete_their_own_tasks. cbn [fst snd].
  split; [reflexivity|]. split; [|split].
  - intros r. rewrite filter_In, negb_true_iff.
    rewrite <- (auth_uid_eq_true user (Tasks.user_id r)), <- (String.eqb_eq (Tasks.id r) id).
    destruct (Sql.auth_uid_eq user (Tasks.user_id r)), (String.eqb (Tasks.id r) id);
      simpl; intuition congruence.
  - intros H. f_equal. apply forallb_filter_id. apply forallb_forall.
    intros r Hr. rewrite negb_true_iff, andb_false_iff.
    destruct (Sql.auth_uid_eq user (Tasks.user_id r)) eqn:E; auto.
    right. apply String.eqb_neq. apply H; auto. now apply auth_uid_eq_true.
  - f_equal. apply filter_idem.
Qed.

Lemma deleteTask_resolves_witness :
  Index.deleteTask (Some Sample.alice) "t3" Sample.tasks = (Resolved, Sample.tasks).
Proof.
  destruct (deleteTask_resolves (Some Sample.alice) "t3" Sample.tasks)
    as (_ & _ & H & _).
  apply H. intros r Hr Hown Hid. simpl in Hr.
  destruct Hr as [<-|[<-|[<-|[<-|[]]]]]; discriminate.
Defined.

(** C7, as stated, fails: deleting the same task a second time resolves
    instead of failing. *)
Lemma deleteTask_twice_resolves :
  Index.deleteTask (Some Sample.alice) "t1" Sample.tasks =
    (Resolved, [Sample.bobs; Sample.report; Sample.laundry]) /\
  Index.deleteTask (Some Sample.alice) "t1" [Sample.bobs; Sample.report; Sample.laundry] =
    (Resolved, [Sample.bobs; Sample.report; Sample.laundry]) /\
  forall e,
    fst (Index.deleteTask (Some Sample.alice) "t1"
           [Sample.bobs; Sample.report; Sample.laundry]) <> Rejected e.
Proof. repeat split. intros e. vm_compute. discriminate. Qed.

(** ** Saving the profile without a session *)

(** C6 (amended): without a signed-in user upsertProfile sends no request
    and leaves the profiles unchanged; it returns without raising an
    error. *)
Theorem upsertProfile_signed_out_is_noop :
  forall (name avatarUrl : string) (args : option Profile.UpsertProfileArgs)
         (now : Timestamp) (new_id : UUID) (b : Profile.Backend),
    Profile.upsertProfile None name avatarUrl args now new_id b = (Resolved, b) /\
    forall file env ui,
      Profile.avatar_onChange file None env ui b = (ui, b).
Proof.
  intros name avatarUrl args now new_id b. split.
  - reflexivity.
  - intros [file|] env ui; reflexivity.
Qed.

(** C6, as stated, fails: without a session the call resolves; it is not
    rejected with any error. *)
Lemma upsertProfile_signed_out_resolves :
  fst (Profile.upsertProfile None "Alice" EmptyString None 20 "p2"
         (Profile.mkBackend [Sample.profile] [])) = Resolved /\
  forall e,
    fst (Profile.upsertProfile None "Alice" EmptyString None 20 "p2"
           (Profile.mkBackend [Sample.profile] [])) <> Rejected e.
Proof. split; [reflexivity|]. intros e. vm_compute. discriminate. Qed.

(** ** Upsert of the profile *)

Section UpsertFacts.

Variable u : UUID.
Variable v : Profiles.values.
Hypothesis v_user : Profiles.v_user_id v = u.
Variable now : Timestamp.

Lemma upsert_update_row (r : Profiles.row) :
  update_row Profiles.user_id Profiles.assign (Some u) (Profiles.conflicts v)
    (Profiles.excluded v) now r =
  if String.eqb (Profiles.user_id r) u then replaced v now r else r.
Proof.
  unfold update_row, targeted, Profiles.conflicts. rewrite v_user.
  simpl Sql.auth_uid_eq. rewrite (String.eqb_sym u).
  destruct (String.eqb (Profiles.user_id r) u); reflexivity.
Qed.

Lemma replaced_ids (t : list Profiles.row) :
  map Profiles.id
    (map (fun r => if String.eqb (Profiles.user_id r) u then replaced v now r else r) t)
  = map Profiles.id t.
Proof.
  rewrite map_map. apply map_ext. intros r.
  destruct (String.eqb (Profiles.user_id r) u); reflexivity.
Qed.

Lemma replaced_user_ids (t : list Profiles.row) :
  map Profiles.user_id
    (map (fun r => if String.eqb (Profiles.user_id r) u then replaced v now r else r) t)
  = map Profiles.user_id t.
Proof.
  rewrite map_map. apply map_ext. intros r.
  destruct (String.eqb (Profiles.user_id r) u) eqn:E; [|reflexivity].
  apply String.eqb_eq in E. simpl. congruence.
Qed.

Lemma constraints_ok (t : list Profiles.row) :
  Profiles.constraints t = true <-> profiles_ok t.
Proof.
  unfold Profiles.constraints, profiles_ok.
  now rewrite andb_true_iff, !distinct_NoDup.
Qed.

(** The conflict branch: the caller's row is replaced in place. *)
Lemma upsert_existing (new_id : UUID) (t : list Profiles.row) :
  profiles_ok t ->
  (exists r, In r t /\ Profiles.user_id r = u) ->
  Profiles.upsert (Some u) v now new_id t =
    Ok (map (fun r => if String.eqb (Profiles.user_id r) u
                      then replaced v now r else r) t).
Proof.
  intros Hok [r [Hr Hu]].
  unfold Profiles.upsert, Profiles.Users_can_create_their_own_profile.
  cbn [Profiles.user_id]. rewrite v_user. simpl Sql.auth_uid_eq.
  rewrite String.eqb_refl.
  assert (existsb (Profiles.conflicts v) t = true) as ->.
  { apply existsb_exists. exists r. split; auto.
    unfold Profiles.conflicts. rewrite v_user. now apply String.eqb_eq. }
  unfold Profiles.update, sql_update.
  rewrite (map_ext _ _ upsert_update_row).
  assert (forallb
            (fun r0 => implb (targeted Profiles.user_id (Some u) (Profiles.conflicts v) r0)
               (Sql.auth_uid_eq (Some u)
                  (Profiles.user_id
                     (new_row Profiles.assign (Profiles.excluded v) now r0)))) t = true)
    as ->.
  { apply forallb_forall. intros x _. simpl. rewrite v_user, String.eqb_refl.
    apply implb_true_r. }
  assert (Profiles.constraints
            (map (fun r0 => if String.eqb (Profiles.user_id r0) u
                            then replaced v now r0 else r0) t) = true) as ->.
  { apply constraints_ok. unfold profiles_ok.
    now rewrite replaced_ids, replaced_user_ids. }
  reflexivity.
Qed.

(** The insert branch: a new row is appended. *)
Lemma upsert_new (new_id : UUID) (t : list Profiles.row) :
  profiles_ok t ->
  (forall r, In r t -> Profiles.user_id r <> u) ->
  ~ In new_id (map Profiles.id t) ->
  Profiles.upsert (Some u) v now new_id t =
    Ok (t ++ [Profiles.mk new_id u (Profiles.v_name v) (Profiles.v_avatar_url v)
                now now]).
Proof.
  intros [Hid Hus] Hnone Hfresh.
  unfold Profiles.upsert, Profiles.Users_can_create_their_own_profile.
  cbn [Profiles.user_id]. rewrite v_user. simpl Sql.auth_uid_eq.
  rewrite String.eqb_refl.
  assert (existsb (Profiles.conflicts v) t = false) as ->.
  { destruct (existsb (Profiles.conflicts v) t) eqn:E; auto.
    apply existsb_exists in E. destruct E as [r [Hr Hc]].
    unfold Profiles.conflicts in Hc. rewrite v_user in Hc.
    apply String.eqb_eq in Hc. now apply Hnone in Hr. }
  unfold Profiles.constraints. rewrite !map_app. cbn [map Profiles.id Profiles.user_id].
  rewrite !distinct_snoc; auto.
  rewrite in_map_iff. intros [r [Hu Hr]]. now apply Hnone in Hr.
Qed.

End UpsertFacts.

Lemma profiles_of_single (u : UUID) (t : list Profiles.row) (r : Profiles.row) :
  NoDup (map Profiles.user_id t) -> In r t -> Profiles.user_id r = u ->
  profiles_of u t = [r].
Proof.
  unfold profiles_of. induction t as [|x t IH]; simpl; [tauto|].
  intros Hnd Hin Hu. inversion Hnd as [|? ? Hx Ht]; subst.
  destruct Hin as [->|Hin].
  - rewrite String.eqb_refl. f_equal.
    clear IH Hnd. induction t as [|y t IH]; simpl; auto.
    destruct (String.eqb (Profiles.user_id y) (Profiles.user_id r)) eqn:E.
    + apply String.eqb_eq in E. exfalso. apply Hx. simpl. now left.
    + apply IH.
      * intros H. apply Hx. now right.
      * now inversion Ht.
  - destruct (String.eqb (Profiles.user_id x) (Profiles.user_id r)) eqn:E.
    + apply String.eqb_eq in E. exfalso. apply Hx. rewrite E.
      now apply in_map.
    + now apply IH.
Qed.

Lemma replace_post (u : UUID) (v : Profiles.values) (now : Timestamp)
    (t : list Profiles.row) (r : Profiles.row) :
  Profiles.v_user_id v = u -> profiles_ok t -> In r t -> Profiles.user_id r = u ->
  let t' := map (fun x => if String.eqb (Profiles.user_id x) u
                          then replaced v now x else x) t in
  profiles_ok t' /\ profiles_of u t' = [replaced v now r] /\
  List.length t' = List.length t.
Proof.
  intros Hv Hok Hr Hu t'. subst t'. split; [|split].
  - unfold profiles_ok. now rewrite replaced_ids, replaced_user_ids.
  - apply profiles_of_single.
    + rewrite replaced_user_ids; [apply Hok|exact Hv].
    + apply in_map_iff. exists r. split; auto.
      rewrite <- Hu, String.eqb_refl. reflexivity.
    + exact Hv.
  - apply length_map.
Qed.

Lemma append_post (u : UUID) (t : list Profiles.row) (r : Profiles.row) :
  profiles_ok t -> Profiles.user_id r = u ->
  ~ In (Profiles.id r) (map Profiles.id t) ->
  (forall x, In x t -> Profiles.user_id x <> u) ->
  profiles_ok (t ++ [r]) /\ profiles_of u (t ++ [r]) = [r].
Proof.
  intros [Hid Hus] Hu Hfresh Hnone.
  assert (profiles_ok (t ++ [r])) as Hok.
  { unfold profiles_ok. rewrite !map_app. simpl.
    split; apply NoDup_snoc; auto.
    rewrite in_map_iff. intros [x [Hx Hin]]. apply (Hnone x Hin). congruence. }
  split; auto.
  apply profiles_of_single; [apply Hok| |exact Hu].
  apply in_or_app. right. now left.
Qed.

Lemma upsertProfile_existing (u : UUID) (name avatarUrl : string)
    (args : option Profile.UpsertProfileArgs) (now : Timestamp) (new_id : UUID)
    (b : Profile.Backend) :
  profiles_ok (Profile.profiles b) ->
  (exists r, In r (Profile.profiles b) /\ Profiles.user_id r = u) ->
  Profile.upsertProfile (Some u) name avatarUrl args now new_id b =
    (Resolved,
     Profile.mkBackend
       (map (fun x => if String.eqb (Profiles.user_id x) u
                      then replaced (profile_payload u name avatarUrl args) now x
                      else x) (Profile.profiles b))
       (Profile.requests b ++ [ProfilesUpsert (profile_payload u name avatarUrl args)])).
Proof.
  intros Hok Hex. unfold Profile.upsertProfile.
  fold (profile_payload u name avatarUrl args).
  now rewrite (upsert_existing u (profile_payload u name avatarUrl args) eq_refl
                 now new_id _ Hok Hex).
Qed.

Lemma upsertProfile_new (u : UUID) (name avatarUrl : string)
    (args : option Profile.UpsertProfileArgs) (now : Timestamp) (new_id : UUID)
    (b : Profile.Backend) :
  profiles_ok (Profile.profiles b) ->
  (forall r, In r (Profile.profiles b) -> Profiles.user_id r <> u) ->
  ~ In new_id (map Profiles.id (Profile.profiles b)) ->
  Profile.upsertProfile (Some u) name avatarUrl args now new_id b =
    (Resolved,
     Profile.mkBackend
       (Profile.profiles b ++
          [Profiles.mk new_id u
             (Profiles.v_name (profile_payload u name avatarUrl args))
             (Profiles.v_avatar_url (profile_payload u name avatarUrl args))
             now now])
       (Profile.requests b ++ [ProfilesUpsert (profile_payload u name avatarUrl args)])).
Proof.
  intros Hok Hnone Hfresh. unfold Profile.upsertProfile.
  fold (profile_payload u name avatarUrl args).
  now rewrite (upsert_new u (profile_payload u name avatarUrl args) eq_refl
                 now new_id _ Hok Hnone Hfresh).
Qed.

Lemma owner_row_dec (u : UUID) (t : list Profiles.row) :
  (exists r, In r t /\ Profiles.user_id r = u) \/
  (forall r, In r t -> Profiles.user_id r <> u).
Proof.
  destruct (existsb (fun r => String.eqb (Profiles.user_id r) u) t) eqn:E.
  - left. apply existsb_exists in E. destruct E as [r [Hr Hu]].
    exists r. split; auto. now apply String.eqb_eq.
  - right. intros r Hr Hu.
    assert (existsb (fun r => String.eqb (Profiles.user_id r) u) t = true);
      [|congruence].
    apply existsb_exists. exists r. split; auto. now apply String.eqb_eq.
Qed.

Lemma upsert_ok_constraints (uid : option UUID) (v : Profiles.values)
    (now : Timestamp) (new_id : UUID) (t t' : list Profiles.row) :
  Profiles.upsert uid v now new_id t = Ok t' -> profiles_ok t'.
Proof.
  unfold Profiles.upsert, Profiles.update, sql_update.
  destruct (Profiles.Users_can_create_their_own_profile _ _); [|discriminate].
  destruct (existsb _ t).
  - destruct (forallb _ t); [|discriminate].
    match goal with |- context [Profiles.constraints ?x] =>
      destruct (Profiles.constraints x) eqn:E end; [|discriminate].
    intros [= <-]. now apply constraints_ok.
  - match goal with |- context [Profiles.constraints ?x] =>
      destruct (Profiles.constraints x) eqn:E end; [|discriminate].
    intros [= <-]. now apply constraints_ok.
Qed.

Lemma upsertProfile_preserves (user : option UUID) (name avatarUrl : string)
    (args : option Profile.UpsertProfileArgs) (now : Timestamp) (new_id : UUID)
    (b : Profile.Backend) :
  profiles_ok (Profile.profiles b) ->
  profiles_ok
    (Profile.profiles (snd (Profile.upsertProfile user name avatarUrl args now new_id b))).
Proof.
  intros Hok. unfold Profile.upsertProfile. destruct user as [u|]; [|exact Hok].
  match goal with |- context [Profiles.upsert ?a ?v ?n ?i ?t] =>
    destruct (Profiles.upsert a v n i t) as [t'|e] eqn:E end; cbn [snd Profile.profiles].
  - now apply upsert_ok_constraints in E.
  - exact Hok.
Qed.

(** C5: upsertProfile keeps at most one profile row per [user_id], whoever
    calls it and whether or not the write succeeds.  For a signed-in user
    (and a fresh id for a possible new row) it succeeds: when the user has
    no row a new one is appended; otherwise the row's [name] and
    [avatar_url] are replaced in place.  After a second call the user still
    has exactly one row and it carries the name and avatar of the second
    call ([name || null]). *)
Theorem upsertProfile_one_row_per_user :
  forall (user : option UUID) (name avatarUrl : string)
         (args : option Profile.UpsertProfileArgs)
         (now : Timestamp) (new_id : UUID) (b : Profile.Backend),
    profiles_ok (Profile.profiles b) ->
    let step := Profile.upsertProfile user name avatarUrl args now new_id b in
    profiles_ok (Profile.profiles (snd step)) /\
    forall u, user = Some u ->
      ~ In new_id (map Profiles.id (Profile.profiles b)) ->
      let v := profile_payload u name avatarUrl args in
      fst step = Resolved /\
      ((forall r, In r (Profile.profiles b) -> Profiles.user_id r <> u) ->
       Profile.profiles (snd step) =
         Profile.profiles b ++
           [Profiles.mk new_id u (Js.or_null name) (Profiles.v_avatar_url v) now now]) /\
      (forall r, In r (Profile.profiles b) -> Profiles.user_id r = u ->
       Profile.profiles (snd step) =
         map (fun x => if String.eqb (Profiles.user_id x) u
                       then Profiles.mk (Profiles.id x) u (Js.or_null name)
                              (Profiles.v_avatar_url v) (Profiles.created_at x) now
                       else x) (Profile.profiles b)) /\
      forall (name2 avatarUrl2 : string) (args2 : option Profile.UpsertProfileArgs)
             (now2 : Timestamp) (new_id2 : UUID),
        let v2 := profile_payload u name2 avatarUrl2 args2 in
        let step2 :=
          Profile.upsertProfile user name2 avatarUrl2 args2 now2 new_id2 (snd step) in
        fst step2 = Resolved /\
        profiles_ok (Profile.profiles (snd step2)) /\
        exists r,
          profiles_of u (Profile.profiles (snd step2)) = [r] /\
          Profiles.name r = Js.or_null name2 /\
          Profiles.avatar_url r = Profiles.v_avatar_url v2.
Proof.
  intros user name avatarUrl args now new_id b Hok step.
  split; [now apply upsertProfile_preserves|].
  intros u -> Hfresh v.
  assert (fst step = Resolved /\
          profiles_ok (Profile.profiles (snd step)) /\
          (exists r, In r (Profile.profiles (snd step)) /\ Profiles.user_id r = u) /\
          ((forall r, In r (Profile.profiles b) -> Profiles.user_id r <> u) ->
           Profile.profiles (snd step) =
             Profile.profiles b ++
               [Profiles.mk new_id u (Js.or_null name) (Profiles.v_avatar_url v) now now]) /\
          (forall r, In r (Profile.profiles b) -> Profiles.user_id r = u ->
           Profile.profiles (snd step) =
             map (fun x => if String.eqb (Profiles.user_id x) u
                           then replaced v now x else x) (Profile.profiles b)))
    as (H1 & H2 & H3 & H4 & H5).
  { destruct (owner_row_dec u (Profile.profiles b)) as [Hex|Hnone].
    - subst step. rewrite (upsertProfile_existing _ _ _ _ _ _ _ Hok Hex).
      cbn [fst snd Profile.profiles]. fold v.
      destruct Hex as [r [Hr Hu]].
      destruct (replace_post u v now _ r eq_refl Hok Hr Hu) as (Hok' & _ & _).
      split; [reflexivity|]. split; [exact Hok'|]. split; [|split].
      + exists (replaced v now r). split; [|reflexivity].
        apply in_map_iff. exists r. split; auto.
        now rewrite <- Hu, String.eqb_refl.
      + intros Hnone. exfalso. exact (Hnone r Hr Hu).
      + reflexivity.
    - subst step. rewrite (upsertProfile_new _ _ _ _ _ _ _ Hok Hnone Hfresh).
      cbn [fst snd Profile.profiles]. fold v.
      destruct (append_post u (Profile.profiles b)
                  (Profiles.mk new_id u (Profiles.v_name v) (Profiles.v_avatar_url v)
                     now now) Hok eq_refl Hfresh Hnone) as [Hok' _].
      split; [reflexivity|]. split; [exact Hok'|]. split; [|split].
      + eexists. split; [apply in_or_app; right; now left|reflexivity].
      + reflexivity.
      + intros r Hr Hu. exfalso. exact (Hnone r Hr Hu). }
  split; [exact H1|]. split; [exact H4|]. split; [exact H5|].
  intros name2 avatarUrl2 args2 now2 new_id2 v2 step2.
  subst step2. rewrite (upsertProfile_existing _ _ _ _ _ _ _ H2 H3).
  cbn [fst snd Profile.profiles]. fold v2.
  destruct H3 as [r [Hr Hu]].
  destruct (replace_post u v2 now2 _ r eq_refl H2 Hr Hu) as (Hok' & Hone & _).
  split; [reflexivity|]. split; [exact Hok'|].
  exists (replaced v2 now2 r). split; [exact Hone|]. split; reflexivity.
Qed.

Lemma upsertProfile_one_row_per_user_witness :
  exists r,
    profiles_of Sample.alice
      (Profile.profiles
         (snd (Profile.upsertProfile (Some Sample.alice) "Alice B." EmptyString None 40 "p3"
                 (snd (Profile.upsertProfile (Some Sample.alice) "Al" EmptyString None 30
                         "p2" (Profile.mkBackend [Sample.profile] [])))))) = [r] /\
    Profiles.name r = Some "Alice B." /\
    Profiles.avatar_url r = None.
Proof.
  assert (profiles_ok [Sample.profile]) as Hok.
  { split; simpl; (constructor; [intros []|constructor]). }
  assert (~ In "p2" (map Profiles.id [Sample.profile])) as Hfresh.
  { simpl. intros [H|[]]. discriminate. }
  destruct (upsertProfile_one_row_per_user (Some Sample.alice) "Al" EmptyString None 30
              "p2" (Profile.mkBackend [Sample.profile] []) Hok) as [_ H].
  destruct (H Sample.alice eq_refl Hfresh) as (_ & _ & _ & H2).
  destruct (H2 "Alice B." EmptyString None 40%Z "p3") as (_ & _ & Hr).
  exact Hr.
Defined.

(** ** The [updated_at] trigger *)

Section TableFacts.

Context {R P : Type} `{Timestamped R}.
Variable owner : R -> UUID.
Variable assign : P -> R -> R.
Variable constraints : list R -> bool.

Lemma sql_update_ok (uid : option UUID) (w : R -> bool) (p : P)
    (now : Timestamp) (t t' : list R) :
  sql_update owner assign constraints uid w p now t = Ok t' ->
  t' = map (update_row owner assign uid w p now) t.
Proof.
  unfold sql_update.
  destruct (forallb _ t); [|discriminate].
  destruct (constraints _); [|discriminate].
  now intros [= <-].
Qed.

(** A successful UPDATE keeps the rows in place; a targeted row becomes
    the trigger's output on the assigned row, any other row is kept. *)
Lemma sql_update_rowwise (uid : option UUID) (w : R -> bool) (p : P)
    (now : Timestamp) (t t' : list R) :
  sql_update owner assign constraints uid w p now t = Ok t' ->
  List.length t' = List.length t /\
  forall i r, nth_error t i = Some r ->
    exists r', nth_error t' i = Some r' /\
      (targeted owner uid w r = true ->
       r' = update_updated_at_column now (assign p r)) /\
      (targeted owner uid w r = false -> r' = r).
Proof.
  intros Hup. apply sql_update_ok in Hup. subst t'. split.
  - apply length_map.
  - intros i r Hi. exists (update_row owner assign uid w p now r). split.
    + rewrite nth_error_map, Hi. reflexivity.
    + unfold update_row, new_row.
      destruct (targeted owner uid w r); split; congruence.
Qed.

End TableFacts.

(** C9: a successful UPDATE of [tasks] or of [profiles] keeps every row in
    its place; in each row it acts on (owned by the caller and selected by
    the WHERE clause) [updated_at] is the current time, whatever the
    statement supplied for it, and every column the statement does not name
    keeps its value; all other rows are unchanged. *)
Theorem update_refreshes_updated_at :
  (forall (uid : option UUID) (w : Tasks.row -> bool) (p : Tasks.patch)
          (now : Timestamp) (t t' : list Tasks.row),
     Tasks.update uid w p now t = Ok t' ->
     List.length t' = List.length t /\
     forall i r, nth_error t i = Some r ->
       exists r', nth_error t' i = Some r' /\
         (uid = Some (Tasks.user_id r) -> w r = true ->
          Tasks.updated_at r' = now /\
          (Tasks.set_id p = None -> Tasks.id r' = Tasks.id r) /\
          (Tasks.set_user_id p = None -> Tasks.user_id r' = Tasks.user_id r) /\
          (Tasks.set_title p = None -> Tasks.title r' = Tasks.title r) /\
          (Tasks.set_description p = None ->
           Tasks.description r' = Tasks.description r) /\
          (Tasks.set_status p = None -> Tasks.status r' = Tasks.status r) /\
          (Tasks.set_created_at p = None ->
           Tasks.created_at r' = Tasks.created_at r)) /\
         (~ (uid = Some (Tasks.user_id r) /\ w r = true) -> r' = r)) /\
  (forall (uid : option UUID) (w : Profiles.row -> bool) (p : Profiles.patch)
          (now : Timestamp) (t t' : list Profiles.row),
     Profiles.update uid w p now t = Ok t' ->
     List.length t' = List.length t /\
     forall i r, nth_error t i = Some r ->
       exists r', nth_error t' i = Some r' /\
         (uid = Some (Profiles.user_id r) -> w r = true ->
          Profiles.updated_at r' = now /\
          (Profiles.set_id p = None -> Profiles.id r' = Profiles.id r) /\
          (Profiles.set_user_id p = None ->
           Profiles.user_id r' = Profiles.user_id r) /\
          (Profiles.set_name p = None -> Profiles.name r' = Profiles.name r) /\
          (Profiles.set_avatar_url p = None ->
           Profiles.avatar_url r' = Profiles.avatar_url r) /\
          (Profiles.set_created_at p = None ->
           Profiles.created_at r' = Profiles.created_at r)) /\
         (~ (uid = Some (Profiles.user_id r) /\ w r = true) -> r' = r)).
Proof.
  split; intros uid w p now t t' Hup;
    apply sql_update_rowwise in Hup; destruct Hup as [Hlen Hrows];
    (split; [exact Hlen|]); intros i r Hi;
    destruct (Hrows i r Hi) as [r' [Hi' [Hyes Hno]]];
    exists r'; (split; [exact Hi'|]); unfold targeted in *; split.
  - intros Hown Hw. apply auth_uid_eq_true in Hown.
    rewrite Hown, Hw in Hyes. rewrite (Hyes eq_refl). simpl.
    repeat split; intros Hp; now rewrite Hp.
  - intros Hn. apply Hno. apply not_true_is_false. intros Ht.
    apply andb_true_iff in Ht. destruct Ht as [Ho Hw].
    apply Hn. split; [now apply auth_uid_eq_true|exact Hw].
  - intros Hown Hw. apply auth_uid_eq_true in Hown.
    rewrite Hown, Hw in Hyes. rewrite (Hyes eq_refl). simpl.
    repeat split; intros Hp; now rewrite Hp.
  - intros Hn. apply Hno. apply not_true_is_false. intros Ht.
    apply andb_true_iff in Ht. destruct Ht as [Ho Hw].
    apply Hn. split; [now apply auth_uid_eq_true|exact Hw].
Qed.

Lemma update_refreshes_updated_at_witness :
  (exists r',
     nth_error [Tasks.mk "t1" Sample.alice "Buy milk" None completed 100 500;
                Sample.bobs; Sample.report; Sample.laundry] 0 = Some r' /\
     Tasks.updated_at r' = 500%Z /\ Tasks.title r' = "Buy milk") /\
  (exists r',
     nth_error [Profiles.mk "p1" Sample.alice (Some "Al") None 10 600] 0 = Some r' /\
     Profiles.updated_at r' = 600%Z /\ Profiles.avatar_url r' = None).
Proof.
  destruct update_refreshes_updated_at as [HT HP]. split.
  - destruct (HT (Some Sample.alice) (fun r => String.eqb (Tasks.id r) "t1")
                (Tasks.mk_patch None None None None (Some completed) None (Some 1%Z))
                500%Z Sample.tasks
                [Tasks.mk "t1" Sample.alice "Buy milk" None completed 100 500;
                 Sample.bobs; Sample.report; Sample.laundry]
                eq_refl) as [_ H].
    destruct (H 0 Sample.milk eq_refl) as [r' [Hr' [Hyes _]]].
    destruct (Hyes eq_refl eq_refl) as (Hu & _ & _ & Ht & _).
    exists r'. split; [exact Hr'|]. split; [exact Hu|]. exact (Ht eq_refl).
  - destruct (HP (Some Sample.alice) (fun _ => true)
                (Profiles.mk_patch None None (Some (Some "Al")) None None (Some 1%Z))
                600%Z [Sample.profile]
                [Profiles.mk "p1" Sample.alice (Some "Al") None 10 600]
                eq_refl) as [_ H].
    destruct (H 0 Sample.profile eq_refl) as [r' [Hr' [Hyes _]]].
    destruct (Hyes eq_refl eq_refl) as (Hu & _ & _ & _ & Ha & _).
    exists r'. split; [exact Hr'|]. split; [exact Hu|]. exact (Ha eq_refl).
Defined.

(** ** Task counts of the profile page *)

Section CountFacts.

Lemma get_set_same (o : Profile.JsRecord) (k : string) (n : nat) :
  Profile.get (Profile.set o k n) k = Some n.
Proof.
  induction o as [|[k' v'] o IH]; simpl.
  - now rewrite String.eqb_refl.
  - destruct (String.eqb k' k) eqn:E; simpl; now rewrite E.
Qed.

Lemma get_set_other (o : Profile.JsRecord) (k k' : string) (n : nat) :
  k <> k' -> Profile.get (Profile.set o k n) k' = Profile.get o k'.
Proof.
  intros Hk. induction o as [|[k0 v0] o IH]; simpl.
  - apply String.eqb_neq in Hk. now rewrite Hk.
  - destruct (String.eqb k0 k) eqn:E; simpl.
    + apply String.eqb_eq in E. subst k0.
      apply String.eqb_neq in Hk. now rewrite Hk.
    + destruct (String.eqb k0 k'); auto.
Qed.

Lemma total_set (o : Profile.JsRecord) (k : string) (n : nat) :
  total_of (Profile.set o k n) + Js.nullish (Profile.get o k) 0 = total_of o + n.
Proof.
  induction o as [|[k0 v0] o IH]; simpl.
  - lia.
  - destruct (String.eqb k0 k) eqn:E; simpl; lia.
Qed.

Lemma tally_get (o : Profile.JsRecord) (st st' : TaskStatus) :
  Js.nullish (Profile.get (Profile.tally o st) (Profile.status_key st')) 0 =
  Js.nullish (Profile.get o (Profile.status_key st')) 0 +
  (if TaskStatus_eqb st' st then 1 else 0).
Proof.
  unfold Profile.tally. destruct st, st'; simpl TaskStatus_eqb.
  - rewrite get_set_same. reflexivity.
  - rewrite get_set_other by discriminate. lia.
  - rewrite get_set_other by discriminate. lia.
  - rewrite get_set_same. reflexivity.
Qed.

Lemma tally_total (o : Profile.JsRecord) (st : TaskStatus) :
  total_of (Profile.tally o st) = total_of o + 1.
Proof.
  unfold Profile.tally.
  pose proof (total_set o (Profile.status_key st)
                (Js.nullish (Profile.get o (Profile.status_key st)) 0 + 1)).
  lia.
Qed.

Lemma summarize_from (rows : list TaskStatus) (o : Profile.JsRecord) :
  let o' := fold_left Profile.tally rows o in
  total_of o' = total_of o + List.length rows /\
  forall st,
    Js.nullish (Profile.get o' (Profile.status_key st)) 0 =
    Js.nullish (Profile.get o (Profile.status_key st)) 0 + occurrences st rows.
Proof.
  revert o. induction rows as [|x rows IH]; intros o; simpl.
  - split; [lia|]. intros st. unfold occurrences. simpl. lia.
  - destruct (IH (Profile.tally o x)) as [Ht Hg]. split.
    + rewrite Ht, tally_total. lia.
    + intros st. rewrite Hg, tally_get. unfold occurrences. simpl.
      destruct (TaskStatus_eqb st x); simpl; lia.
Qed.

Lemma totalTasks_entries (o : Profile.JsRecord) :
  Profile.totalTasks (map (fun e => Profile.mkCount (fst e) (snd e)) o) = total_of o.
Proof.
  unfold Profile.totalTasks.
  assert (forall a, fold_left (fun sum row => sum + Profile.count row)
                      (map (fun e => Profile.mkCount (fst e) (snd e)) o) a
                    = a + total_of o) as Hgen.
  { induction o as [|[k n] o IH]; intros a; simpl.
    - lia.
    - rewrite IH. lia. }
  apply Hgen.
Qed.

Lemma count_of_entries (o : Profile.JsRecord) (st : string) :
  Profile.count_of st (map (fun e => Profile.mkCount (fst e) (snd e)) o) =
  Js.nullish (Profile.get o st) 0.
Proof.
  unfold Profile.count_of. induction o as [|[k n] o IH]; simpl; auto.
  destruct (String.eqb k st); auto.
Qed.

Lemma occurrences_partition (rows : list TaskStatus) :
  occurrences completed rows + occurrences pending rows = List.length rows.
Proof.
  unfold occurrences. induction rows as [|[] rows IH]; simpl; lia.
Qed.

Lemma counts_entries (user : option UUID) (tasks : list Tasks.row) :
  Profile.counts user tasks =
  map (fun e => Profile.mkCount (fst e) (snd e))
      (Profile.summarize (fetched_statuses user tasks)).
Proof. destruct user; reflexivity. Qed.

End CountFacts.

(** C10: for every result of the task-count query the displayed total is
    the sum of the completed and the pending counts; the two counts are the
    numbers of completed and of pending rows fetched and the total is the
    number of rows fetched. *)
Theorem totalTasks_is_completed_plus_pending :
  forall (user : option UUID) (tasks : list Tasks.row),
    let counts := Profile.counts user tasks in
    Profile.totalTasks counts =
      Profile.completedTasks counts + Profile.pendingTasks counts /\
    Profile.completedTasks counts = occurrences completed (fetched_statuses user tasks) /\
    Profile.pendingTasks counts = occurrences pending (fetched_statuses user tasks) /\
    Profile.totalTasks counts = List.length (fetched_statuses user tasks).
Proof.
  intros user tasks counts. subst counts. rewrite counts_entries.
  unfold Profile.completedTasks, Profile.pendingTasks.
  rewrite totalTasks_entries, !count_of_entries.
  destruct (summarize_from (fetched_statuses user tasks) []) as [Ht Hg].
  pose proof (Hg completed) as Hc. pose proof (Hg pending) as Hp.
  pose proof (occurrences_partition (fetched_statuses user tasks)) as Hpart.
  simpl in Ht, Hc, Hp.
  fold (Profile.summarize (fetched_statuses user tasks)) in Ht, Hc, Hp.
  rewrite Ht, Hc, Hp. repeat split; lia.
Qed.

(** ** Avatar upload *)

Lemma upsertProfile_requests (u : UUID) (name avatarUrl : string)
    (args : option Profile.UpsertProfileArgs) (now : Timestamp) (new_id : UUID)
    (b : Profile.Backend) :
  Profile.requests (snd (Profile.upsertProfile (Some u) name avatarUrl args now new_id b)) =
  Profile.requests b ++ [ProfilesUpsert (profile_payload u name avatarUrl args)].
Proof.
  unfold Profile.upsertProfile. fold (profile_payload u name avatarUrl args).
  destruct (Profiles.upsert _ _ _ _ _); reflexivity.
Qed.

(** C8: the file handler of src/pages/Profile.tsx checks neither the size
    nor the content type: for every chosen file and signed-in user it sends
    the file to the storage bucket. *)
Theorem avatar_onChange_uploads_any_file :
  forall (file : File.t) (u : UUID) (env : Profile.Env) (ui : Profile.Ui)
         (b : Profile.Backend),
    exists rest,
      Profile.requests (snd (Profile.avatar_onChange (Some file) (Some u) env ui b)) =
      Profile.requests b ++
        StorageUpload "avatars"
          (u ++ "/" ++ u ++ "-" ++ Js.number_to_string (Profile.Date_now env) ++ "."
             ++ Js.split_pop "." (File.name file))%string
          file :: rest.
Proof.
  intros file u env ui b. unfold Profile.avatar_onChange.
  destruct (Profile.upload_failed env).
  - exists []. reflexivity.
  - match goal with
    | |- context [Profile.upsertProfile ?a ?n ?av ?ar ?t ?i ?b1] =>
        pose proof (upsertProfile_requests u n av ar t i b1) as Hreq;
        destruct (Profile.upsertProfile a n av ar t i b1) as [o b2]
    end.
    cbn [snd] in *. rewrite Hreq. cbn [Profile.requests].
    rewrite <- app_assoc. eexists. reflexivity.
Qed.

(** The handler at a 10 MiB PDF: the upload and the profile write are both
    sent and no error is shown. *)
Lemma avatar_onChange_uploads_big_pdf :
  Profile.avatar_onChange (Some Sample.big_pdf) (Some Sample.alice) Sample.env
    Sample.ui Sample.backend =
  (Profile.mkUi "Alice"
     "https://cdn.example/avatars/a11ce/a11ce-1700000000000.pdf" None false,
   Profile.mkBackend
     [Profiles.mk "p1" Sample.alice (Some "Alice")
        (Some "https://cdn.example/avatars/a11ce/a11ce-1700000000000.pdf") 10 700]
     [StorageUpload "avatars" "a11ce/a11ce-1700000000000.pdf" Sample.big_pdf;
      ProfilesUpsert
        (Profiles.mk_values Sample.alice (Some "Alice")
           (Some "https://cdn.example/avatars/a11ce/a11ce-1700000000000.pdf"))]).
Proof. reflexivity. Qed.

(** The earlier handler rejects the file before any request is sent, with
    one message for the size and another for the content type. *)
Lemma earlier_avatar_onChange_validates (file : File.t) (u : UUID)
    (env : Profile.Env) (ui : Profile.Ui) (b : Profile.Backend) :
  ((File.size file > 5 * 1024 * 1024)%Z ->
   ProfileEarlier.avatar_onChange (Some file) (Some u) env ui b =
     (Profile.mkUi (Profile.name ui) (Profile.avatarUrl ui)
        (Some "Please choose an image smaller than 5MB.")
        (Profile.isUploadingAvatar ui), b)) /\
  ((File.size file <= 5 * 1024 * 1024)%Z ->
   Js.startsWith (File.type file) "image/" = false ->
   ProfileEarlier.avatar_onChange (Some file) (Some u) env ui b =
     (Profile.mkUi (Profile.name ui) (Profile.avatarUrl ui)
        (Some "Please upload an image file (PNG, JPG, etc.).")
        (Profile.isUploadingAvatar ui), b)) /\
  "Please choose an image smaller than 5MB." <>
  "Please upload an image file (PNG, JPG, etc.).".
Proof.
  unfold ProfileEarlier.avatar_onChange, ProfileEarlier.maxSizeMb.
  split; [|split].
  - intros H. apply Z.gtb_gt in H. now rewrite H.
  - intros H Ht.
    destruct (File.size file >? 5 * 1024 * 1024)%Z eqn:E.
    + apply Z.gtb_gt in E. lia.
    + now rewrite Ht.
  - discriminate.
Qed.

Lemma earlier_avatar_onChange_rejects_samples :
  ProfileEarlier.avatar_onChange (Some Sample.big_png) (Some Sample.alice) Sample.env
    Sample.ui Sample.backend =
    (Profile.mkUi "Alice" EmptyString
       (Some "Please choose an image smaller than 5MB.") false, Sample.backend) /\
  ProfileEarlier.avatar_onChange (Some Sample.notes) (Some Sample.alice) Sample.env
    Sample.ui Sample.backend =
    (Profile.mkUi "Alice" EmptyString
       (Some "Please upload an image file (PNG, JPG, etc.).") false, Sample.backend) /\
  Profile.requests
    (snd (ProfileEarlier.avatar_onChange (Some Sample.small_png) (Some Sample.alice)
            Sample.env Sample.ui Sample.backend)) =
    [StorageUpload "avatars" "user-a11ce/1700000000000.png" Sample.small_png;
     ProfilesUpsert
       (Profiles.mk_values Sample.alice (Some "Alice")
          (Some "https://cdn.example/avatars/user-a11ce/1700000000000.png"))].
Proof. repeat split. Qed.

(** ** Pagination controls *)

Section PaginationFacts.

Variables page pageCount : Z.

Lemma shown_spec (i : Z) :
  PaginationControls.shown page pageCount i = true <->
  (i = 1 \/ i = pageCount \/ -1 <= i - page <= 1)%Z.
Proof.
  unfold PaginationControls.shown.
  rewrite !orb_true_iff, !Z.eqb_eq, Z.leb_le. lia.
Qed.

Lemma page_numbers_app (a b : list PaginationControls.Item) :
  page_numbers (a ++ b) = page_numbers a ++ page_numbers b.
Proof.
  induction a as [|[n|] a IH]; simpl; auto. now rewrite IH.
Qed.

Lemma count_ellipsis_app (a b : list PaginationControls.Item) :
  count_ellipsis (a ++ b) = count_ellipsis a + count_ellipsis b.
Proof.
  induction a as [|[n|] a IH]; simpl; auto.
Qed.

Lemma items_length (l : list PaginationControls.Item) :
  List.length l = List.length (page_numbers l) + count_ellipsis l.
Proof.
  induction l as [|[n|] l IH]; simpl; lia.
Qed.

Lemma last_is_ellipsis_snoc (l : list PaginationControls.Item)
    (x : PaginationControls.Item) :
  PaginationControls.last_is_ellipsis (l ++ [x]) =
  match x with PaginationControls.ellipsis => true | _ => false end.
Proof.
  unfold PaginationControls.last_is_ellipsis. rewrite rev_app_distr. reflexivity.
Qed.

Lemma items_upto_S (n : nat) :
  items_upto page pageCount (S n) =
  PaginationControls.push page pageCount (items_upto page pageCount n)
    (Z.of_nat (S n)).
Proof.
  unfold items_upto. rewrite seq_S, map_app, fold_left_app. reflexivity.
Qed.

Lemma items_items_upto :
  PaginationControls.items page pageCount =
  items_upto page pageCount (Z.to_nat pageCount).
Proof. reflexivity. Qed.

Lemma numbers_upto (n : nat) :
  page_numbers (items_upto page pageCount n) =
  filter (PaginationControls.shown page pageCount) (map Z.of_nat (seq 1 n)).
Proof.
  induction n as [|n IH]; [reflexivity|].
  rewrite items_upto_S, seq_S, map_app, filter_app, <- IH.
  unfold PaginationControls.push. cbn [map filter]. change (1 + n) with (S n).
  destruct (PaginationControls.shown page pageCount (Z.of_nat (S n))).
  - now rewrite page_numbers_app.
  - destruct (negb _).
    + rewrite page_numbers_app. reflexivity.
    + now rewrite app_nil_r.
Qed.

Lemma ellipses_upto (n : nat) :
  (1 <= n ->
   PaginationControls.last_is_ellipsis (items_upto page pageCount n) =
   negb (PaginationControls.shown page pageCount (Z.of_nat n))) /\
  count_ellipsis (items_upto page pageCount n) =
  List.length (filter (gap_start page pageCount) (map Z.of_nat (seq 1 n))).
Proof.
  induction n as [|n [IHlast IHcount]]; [split; [lia|reflexivity]|].
  rewrite items_upto_S, seq_S, map_app, filter_app, length_app, <- IHcount.
  unfold PaginationControls.push, gap_start. cbn [map filter]. change (1 + n) with (S n).
  replace (Z.of_nat (S n) - 1)%Z with (Z.of_nat n) by lia.
  destruct (PaginationControls.shown page pageCount (Z.of_nat (S n))) eqn:Es.
  - split; [intros _; now rewrite last_is_ellipsis_snoc|].
    rewrite count_ellipsis_app. simpl. lia.
  - destruct n as [|n].
    + exfalso. assert (PaginationControls.shown page pageCount 1 = true) as H1
        by (apply shown_spec; lia).
      simpl in Es. congruence.
    + rewrite (IHlast ltac:(lia)).
      destruct (PaginationControls.shown page pageCount (Z.of_nat (S n))) eqn:En;
        cbn [negb andb].
      * split; [intros _; now rewrite last_is_ellipsis_snoc|].
        rewrite count_ellipsis_app. simpl. lia.
      * split; [intros _; now apply IHlast; lia|]. simpl. lia.
Qed.

Lemma indices_In (i : Z) :
  In i (PaginationControls.indices pageCount) <-> (1 <= i <= pageCount)%Z.
Proof.
  unfold PaginationControls.indices. rewrite in_map_iff. split.
  - intros [k [<- Hk]]. apply in_seq in Hk. lia.
  - intros Hi. exists (Z.to_nat i). split; [lia|]. apply in_seq. lia.
Qed.

Lemma indices_NoDup : NoDup (PaginationControls.indices pageCount).
Proof.
  unfold PaginationControls.indices.
  generalize (seq_NoDup (Z.to_nat pageCount) 1).
  generalize (seq 1 (Z.to_nat pageCount)).
  induction 1 as [|k l Hk Hl IH]; simpl; constructor; auto.
  rewrite in_map_iff. intros [k' [Heq Hin]].
  apply Nat2Z.inj in Heq. congruence.
Qed.

End PaginationFacts.

Lemma StronglySorted_filter {A} (R : A -> A -> Prop) (f : A -> bool) (l : list A) :
  StronglySorted R l -> StronglySorted R (filter f l).
Proof.
  induction 1 as [|x l Hl IH Hx]; simpl; [constructor|].
  destruct (f x); auto. constructor; auto.
  apply Forall_forall. intros y Hy. apply filter_In in Hy.
  rewrite Forall_forall in Hx. now apply Hx.
Qed.

Lemma indices_sorted (pageCount : Z) :
  StronglySorted Z.lt (PaginationControls.indices pageCount).
Proof.
  unfold PaginationControls.indices.
  generalize 1 as start. induction (Z.to_nat pageCount) as [|n IH]; intros start; simpl.
  - constructor.
  - constructor; [apply IH|].
    apply Forall_forall. intros y Hy. apply in_map_iff in Hy.
    destruct Hy as [k [<- Hk]]. apply in_seq in Hk. lia.
Qed.

Lemma In_page_numbers (l : list PaginationControls.Item) (i : Z) :
  In (PaginationControls.Page i) l <-> In i (page_numbers l).
Proof.
  induction l as [|[n|] l IH]; simpl; [tauto| |].
  - rewrite <- IH. split; intros [H|H]; auto; left; congruence.
  - rewrite <- IH. split; [intros [H|H]; [discriminate|auto]|auto].
Qed.

(** X1: under any sequence of clicks on the pagination control the page
    stays between 1 and the page count; "Previous" on the first page and
    "Next" on the last page change nothing, and a click on a page of the
    range goes there. *)
Theorem page_stays_in_range :
  forall (pageCount page : Z) (clicks : list Z),
    (1 <= page <= pageCount)%Z ->
    (1 <= fold_left (fun p next => PaginationControls.page_after p pageCount next)
            clicks page <= pageCount)%Z /\
    PaginationControls.page_after 1 pageCount (1 - 1) = 1%Z /\
    PaginationControls.page_after pageCount pageCount (pageCount + 1) = pageCount /\
    forall next, (1 <= next <= pageCount)%Z ->
      PaginationControls.page_after page pageCount next = next.
Proof.
  intros pageCount page clicks Hp.
  assert (forall p next, (1 <= p <= pageCount)%Z ->
            (1 <= PaginationControls.page_after p pageCount next <= pageCount)%Z)
    as Hstep.
  { intros p next Hr.
    unfold PaginationControls.page_after, PaginationControls.handlePageChange.
    destruct (next <? 1)%Z eqn:E1; simpl; [lia|].
    destruct (next >? pageCount)%Z eqn:E2; simpl; [lia|].
    destruct (next =? p)%Z; lia. }
  split; [|split; [|split]].
  - revert page Hp. induction clicks as [|c clicks IH]; intros page Hp; simpl; auto.
  - unfold PaginationControls.page_after, PaginationControls.handlePageChange.
    reflexivity.
  - unfold PaginationControls.page_after, PaginationControls.handlePageChange.
    destruct (pageCount + 1 <? 1)%Z; simpl; auto.
    assert ((pageCount + 1 >? pageCount)%Z = true) as -> by lia. reflexivity.
  - intros next Hn.
    unfold PaginationControls.page_after, PaginationControls.handlePageChange.
    assert ((next <? 1)%Z = false) as -> by lia.
    assert ((next >? pageCount)%Z = false) as -> by lia. simpl.
    destruct (next =? page)%Z eqn:E; auto. lia.
Qed.

Lemma page_stays_in_range_witness :
  (1 <= fold_left (fun p next => PaginationControls.page_after p 4 next)
          [0; 2; 3; 9; 4; 5]%Z 1 <= 4)%Z /\
  PaginationControls.page_after 2 4 3 = 3%Z.
Proof.
  destruct (page_stays_in_range 4 1 [0; 2; 3; 9; 4; 5]%Z ltac:(lia)) as [H _].
  destruct (page_stays_in_range 4 2 [] ltac:(lia)) as (_ & _ & _ & H3).
  split; [exact H|]. apply H3. lia.
Defined.

(** X2: the control shows a page number exactly when it lies between 1 and
    the page count and is the first page, the last page, or within one of
    the current page; the numbers appear in increasing order, each once. *)
Theorem items_show_first_last_and_neighbours :
  forall (page pageCount : Z),
    (forall i,
       In (PaginationControls.Page i) (PaginationControls.items page pageCount) <->
       (1 <= i <= pageCount)%Z /\
       (i = 1 \/ i = pageCount \/ -1 <= i - page <= 1)%Z) /\
    StronglySorted Z.lt (page_numbers (PaginationControls.items page pageCount)).
Proof.
  intros page pageCount.
  rewrite items_items_upto, numbers_upto.
  fold (PaginationControls.indices pageCount). split.
  - intros i. rewrite In_page_numbers, numbers_upto.
    fold (PaginationControls.indices pageCount).
    now rewrite filter_In, indices_In, shown_spec.
  - apply StronglySorted_filter, indices_sorted.
Qed.

Lemma adjacent_snoc (l : list PaginationControls.Item) (x : PaginationControls.Item) :
  adjacent_ellipses (l ++ [x]) ->
  adjacent_ellipses l \/
  (x = PaginationControls.ellipsis /\ PaginationControls.last_is_ellipsis l = true).
Proof.
  intros [a [b Hab]]. destruct b as [|y b _] using rev_ind.
  - right.
    change (l ++ [x] = a ++ [PaginationControls.ellipsis] ++ [PaginationControls.ellipsis])
      in Hab.
    rewrite app_assoc in Hab. apply app_inj_tail in Hab. destruct Hab as [-> ->].
    split; auto. apply last_is_ellipsis_snoc.
  - left. exists a, b.
    change (l ++ [x] =
            a ++ (PaginationControls.ellipsis :: PaginationControls.ellipsis :: b) ++ [y])
      in Hab.
    rewrite app_assoc in Hab. apply app_inj_tail in Hab. tauto.
Qed.

Lemma no_adjacent_upto (page pageCount : Z) (n : nat) :
  ~ adjacent_ellipses (items_upto page pageCount n).
Proof.
  induction n as [|n IH].
  - intros [a [b H]]. destruct a; discriminate.
  - rewrite items_upto_S. unfold PaginationControls.push.
    destruct (PaginationControls.shown _ _ _).
    + intros H. apply adjacent_snoc in H. destruct H as [H|[H _]]; [auto|discriminate].
    + destruct (PaginationControls.last_is_ellipsis _) eqn:E; simpl; auto.
      intros H. apply adjacent_snoc in H. destruct H as [H|[_ H]]; [auto|congruence].
Qed.

Lemma push_extends (page pageCount : Z) (l : list Z)
    (acc : list PaginationControls.Item) :
  exists rest, fold_left (PaginationControls.push page pageCount) l acc = acc ++ rest.
Proof.
  revert acc. induction l as [|i l IH]; intros acc; simpl.
  - exists []. now rewrite app_nil_r.
  - destruct (IH (PaginationControls.push page pageCount acc i)) as [rest ->].
    unfold PaginationControls.push.
    destruct (PaginationControls.shown _ _ _); [|destruct (negb _)].
    + exists ([PaginationControls.Page i] ++ rest). now rewrite app_assoc.
    + exists ([PaginationControls.ellipsis] ++ rest). now rewrite app_assoc.
    + now exists rest.
Qed.

(** X3: for a page count of at least 1 the control starts with page 1 and
    ends with the last page, and never shows two ellipses next to each
    other. *)
Theorem items_shape :
  forall (page pageCount : Z),
    (1 <= pageCount)%Z ->
    (exists rest,
       PaginationControls.items page pageCount = PaginationControls.Page 1 :: rest) /\
    (exists front,
       PaginationControls.items page pageCount =
       front ++ [PaginationControls.Page pageCount]) /\
    ~ adjacent_ellipses (PaginationControls.items page pageCount).
Proof.
  intros page pageCount Hpc. split; [|split].
  - unfold PaginationControls.items, PaginationControls.indices.
    destruct (Z.to_nat pageCount) as [|n] eqn:En; [lia|].
    cbn [seq map fold_left].
    assert (PaginationControls.push page pageCount [] (Z.of_nat 1) =
            [PaginationControls.Page 1]) as ->.
    { unfold PaginationControls.push.
      assert (PaginationControls.shown page pageCount (Z.of_nat 1) = true) as ->
        by (apply shown_spec; lia).
      reflexivity. }
    destruct (push_extends page pageCount (map Z.of_nat (seq 2 n))
                [PaginationControls.Page 1]) as [rest ->].
    now exists rest.
  - rewrite items_items_upto.
    destruct (Z.to_nat pageCount) as [|n] eqn:En; [lia|].
    rewrite items_upto_S. unfold PaginationControls.push.
    assert (PaginationControls.shown page pageCount (Z.of_nat (S n)) = true) as ->
      by (apply shown_spec; lia).
    replace (Z.of_nat (S n)) with pageCount by lia.
    now exists (items_upto page pageCount n).
  - rewrite items_items_upto. apply no_adjacent_upto.
Qed.

Lemma items_shape_witness :
  PaginationControls.items 5 9 =
    [PaginationControls.Page 1; PaginationControls.ellipsis;
     PaginationControls.Page 4; PaginationControls.Page 5; PaginationControls.Page 6;
     PaginationControls.ellipsis; PaginationControls.Page 9] /\
  ~ adjacent_ellipses (PaginationControls.items 5 9).
Proof.
  split; [reflexivity|].
  apply (items_shape 5 9). lia.
Defined.

(** X4: whatever the page and the page count, the control has at most seven
    entries: at most five page numbers and at most two ellipses. *)
Theorem items_at_most_seven :
  forall (page pageCount : Z),
    List.length (page_numbers (PaginationControls.items page pageCount)) <= 5 /\
    count_ellipsis (PaginationControls.items page pageCount) <= 2 /\
    List.length (PaginationControls.items page pageCount) <= 7.
Proof.
  intros page pageCount.
  assert (List.length (page_numbers (PaginationControls.items page pageCount)) <= 5)
    as Hn.
  { rewrite items_items_upto, numbers_upto.
    fold (PaginationControls.indices pageCount).
    change 5 with (List.length [1; pageCount; page - 1; page; page + 1]%Z).
    apply NoDup_incl_length.
    - apply NoDup_filter, indices_NoDup.
    - intros i Hi. apply filter_In in Hi. destruct Hi as [_ Hi].
      apply shown_spec in Hi. simpl. lia. }
  assert (count_ellipsis (PaginationControls.items page pageCount) <= 2) as He.
  { rewrite items_items_upto.
    destruct (ellipses_upto page pageCount (Z.to_nat pageCount)) as [_ ->].
    fold (PaginationControls.indices pageCount).
    change 2 with (List.length [2; page + 2]%Z).
    apply NoDup_incl_length.
    - apply NoDup_filter, indices_NoDup.
    - intros i Hi. apply filter_In in Hi. destruct Hi as [Hin Hi].
      apply indices_In in Hin.
      unfold gap_start in Hi. apply andb_true_iff in Hi. destruct Hi as [Hno Hyes].
      apply negb_true_iff in Hno. apply shown_spec in Hyes.
      assert (~ (i = 1 \/ i = pageCount \/ -1 <= i - page <= 1)%Z) as Hno'.
      { intros H. apply shown_spec in H. congruence. }
      simpl. lia. }
  split; [exact Hn|]. split; [exact He|].
  rewrite items_length. lia.
Qed.

(** ** Updating and toggling a task *)

Lemma updateTask_signed_in (u : UUID) (task : Index.TaskUpdate) (now : Timestamp)
    (tasks : list Tasks.row) :
  NoDup (map Tasks.id tasks) ->
  Index.updateTask (Some u) task now tasks =
    (Resolved,
     map (fun r => if is_target u (Index.u_id task) r
                   then updated_task task now r else r) tasks).
Proof.
  intros Hnd. unfold Index.updateTask, Tasks.update, sql_update.
  assert (forall r,
            update_row Tasks.user_id Tasks.assign (Some u)
              (fun r0 => String.eqb (Tasks.id r0) (Index.u_id task))
              (Tasks.mk_patch None None (Index.u_title task) (Index.u_description task)
                 (Index.u_status task) None None) now r =
            if is_target u (Index.u_id task) r then updated_task task now r else r)
    as Hrow.
  { intros r. unfold update_row, targeted, is_target. simpl Sql.auth_uid_eq.
    destruct (String.eqb u (Tasks.user_id r) && String.eqb (Tasks.id r) (Index.u_id task));
      reflexivity. }
  rewrite (map_ext _ _ Hrow).
  match goal with |- context [forallb ?f tasks] =>
    assert (forallb f tasks = true) as -> end.
  { apply forallb_forall. intros r _. unfold targeted. simpl.
    destruct (String.eqb u (Tasks.user_id r)); simpl; auto.
    apply implb_true_r. }
  assert (Tasks.constraints
            (map (fun r => if is_target u (Index.u_id task) r
                           then updated_task task now r else r) tasks) = true) as ->.
  { unfold Tasks.constraints. apply distinct_NoDup.
    rewrite map_map.
    rewrite (map_ext _ Tasks.id); [exact Hnd|].
    intros r. destruct (is_target u (Index.u_id task) r); reflexivity. }
  reflexivity.
Qed.

(** X5: updateTask by a signed-in user never fails on a table with distinct
    ids.  In the caller's row with the given id the supplied fields take the
    new values, the other fields are kept and [updated_at] becomes the
    current time; every other row is unchanged, so a task that is absent or
    belongs to someone else leaves the whole table as it was. *)
Theorem updateTask_changes_only_supplied_fields :
  forall (u : UUID) (task : Index.TaskUpdate) (now : Timestamp)
         (tasks : list Tasks.row),
    NoDup (map Tasks.id tasks) ->
    Index.updateTask (Some u) task now tasks =
      (Resolved,
       map (fun r => if is_target u (Index.u_id task) r
                     then updated_task task now r else r) tasks) /\
    ((forall r, In r tasks -> Tasks.user_id r = u -> Tasks.id r <> Index.u_id task) ->
     Index.updateTask (Some u) task now tasks = (Resolved, tasks)).
Proof.
  intros u task now tasks Hnd. split; [now apply updateTask_signed_in|].
  intros Hnone. rewrite updateTask_signed_in by assumption. f_equal.
  rewrite <- (map_id tasks) at 2. apply map_ext_in. intros r Hr.
  unfold is_target.
  destruct (String.eqb u (Tasks.user_id r)) eqn:Eu; simpl; auto.
  destruct (String.eqb (Tasks.id r) (Index.u_id task)) eqn:Ei; auto.
  apply String.eqb_eq in Eu, Ei. exfalso. now apply (Hnone r Hr).
Qed.

Lemma updateTask_changes_only_supplied_fields_witness :
  Index.updateTask (Some Sample.alice)
    (Index.mkTaskUpdate "t1" (Some "Buy oat milk") None None) 900 Sample.tasks =
    (Resolved,
     [Tasks.mk "t1" Sample.alice "Buy oat milk" None pending 100 900;
      Sample.bobs; Sample.report; Sample.laundry]) /\
  Index.updateTask (Some Sample.alice)
    (Index.mkTaskUpdate "t3" (Some "Mine now") None None) 900 Sample.tasks =
    (Resolved, Sample.tasks).
Proof.
  assert (NoDup (map Tasks.id Sample.tasks)) as Hnd
    by (apply distinct_NoDup; reflexivity).
  split.
  - apply (updateTask_changes_only_supplied_fields Sample.alice
             (Index.mkTaskUpdate "t1" (Some "Buy oat milk") None None) 900
             Sample.tasks Hnd).
  - apply (updateTask_changes_only_supplied_fields Sample.alice
             (Index.mkTaskUpdate "t3" (Some "Mine now") None None) 900
             Sample.tasks Hnd).
    intros r Hr Hu Hid. simpl in Hr.
    destruct Hr as [<-|[<-|[<-|[<-|[]]]]]; discriminate.
Defined.

Lemma target_is_row (u : UUID) (tasks : list Tasks.row) (r x : Tasks.row) :
  NoDup (map Tasks.id tasks) -> In r tasks -> In x tasks ->
  Tasks.user_id r = u ->
  is_target u (Tasks.id r) x = true <-> x = r.
Proof.
  intros Hnd Hr Hx Hu. unfold is_target.
  rewrite andb_true_iff, !String.eqb_eq. split.
  - intros [_ Hid]. now apply (NoDup_map_eq Tasks.id tasks).
  - intros ->. auto.
Qed.

(** X6: "Mark done" / "Mark pending" on one's own task flips its status and
    nothing else but [updated_at]; pressing it again on the refreshed task
    brings the status back, so the table then differs from the original
    only in that row's [updated_at]. *)
Theorem handleToggleStatus_twice_restores :
  forall (u : UUID) (r : Tasks.row) (now1 now2 : Timestamp)
         (tasks : list Tasks.row),
    NoDup (map Tasks.id tasks) -> In r tasks -> Tasks.user_id r = u ->
    let flipped :=
      Tasks.mk (Tasks.id r) u (Tasks.title r) (Tasks.description r)
               (other_status (Tasks.status r)) (Tasks.created_at r) now1 in
    let once := Index.handleToggleStatus (Some u) (Index.select_columns r) now1 tasks in
    let twice :=
      Index.handleToggleStatus (Some u) (Index.select_columns flipped) now2 (snd once) in
    once = (Resolved, map (fun x => if String.eqb (Tasks.id x) (Tasks.id r)
                                    then flipped else x) tasks) /\
    twice = (Resolved,
             map (fun x => if String.eqb (Tasks.id x) (Tasks.id r)
                           then Tasks.mk (Tasks.id r) u (Tasks.title r)
                                  (Tasks.description r) (Tasks.status r)
                                  (Tasks.created_at r) now2
                           else x) tasks).
Proof.
  intros u r now1 now2 tasks Hnd Hr Hu flipped once twice.
  assert (once = (Resolved, map (fun x => if String.eqb (Tasks.id x) (Tasks.id r)
                                          then flipped else x) tasks)) as Honce.
  { subst once. unfold Index.handleToggleStatus.
    rewrite updateTask_signed_in by assumption. f_equal.
    apply map_ext_in. intros x Hx. cbn [Index.u_id Index.id Index.select_columns].
    destruct (is_target u (Tasks.id r) x) eqn:E.
    - apply (target_is_row u tasks r x Hnd Hr Hx Hu) in E. subst x.
      rewrite String.eqb_refl. subst flipped. unfold updated_task. simpl.
      rewrite Hu. destruct (Tasks.status r); reflexivity.
    - destruct (String.eqb (Tasks.id x) (Tasks.id r)) eqn:Ei; auto.
      apply String.eqb_eq in Ei.
      assert (x = r) as -> by now apply (NoDup_map_eq Tasks.id tasks).
      assert (is_target u (Tasks.id r) r = true) as Ht
        by now apply (target_is_row u tasks r r Hnd Hr Hr Hu).
      congruence. }
  split; [exact Honce|].
  subst twice. rewrite Honce. cbn [snd]. unfold Index.handleToggleStatus.
  rewrite updateTask_signed_in.
  - f_equal. rewrite map_map. apply map_ext_in. intros x Hx.
    cbn [Index.u_id Index.id Index.select_columns Index.status].
    destruct (String.eqb (Tasks.id x) (Tasks.id r)) eqn:Ei.
    + subst flipped. unfold is_target, updated_task. simpl.
      rewrite !String.eqb_refl. simpl.
      destruct (Tasks.status r); reflexivity.
    + subst flipped. unfold is_target. simpl. rewrite Ei.
      now rewrite andb_false_r.
  - rewrite map_map. rewrite (map_ext _ Tasks.id); [exact Hnd|].
    intros x. destruct (String.eqb (Tasks.id x) (Tasks.id r)) eqn:Ei; auto.
    apply String.eqb_eq in Ei. subst flipped. simpl. congruence.
Qed.

Lemma handleToggleStatus_twice_restores_witness :
  Index.handleToggleStatus (Some Sample.alice)
    (Index.select_columns
       (Tasks.mk "t1" Sample.alice "Buy milk" None completed 100 800)) 900
    (snd (Index.handleToggleStatus (Some Sample.alice)
            (Index.select_columns Sample.milk) 800 Sample.tasks)) =
  (Resolved,
   [Tasks.mk "t1" Sample.alice "Buy milk" None pending 100 900;
    Sample.bobs; Sample.report; Sample.laundry]).
Proof.
  assert (NoDup (map Tasks.id Sample.tasks)) as Hnd
    by (apply distinct_NoDup; reflexivity).
  destruct (handleToggleStatus_twice_restores Sample.alice Sample.milk 800 900
              Sample.tasks Hnd (or_introl eq_refl) eq_refl) as [_ H].
  exact H.
Defined.

(** ** Creating, listing and deleting *)

(** X7: deleting the task that was just created gives back the table as it
    was before the creation. *)
Theorem createTask_then_deleteTask :
  forall (u : UUID) (title description : string) (status : TaskStatus)
         (now : Timestamp) (new_id : UUID) (tasks : list Tasks.row),
    NoDup (map Tasks.id tasks) -> ~ In new_id (map Tasks.id tasks) ->
    Index.deleteTask (Some u) new_id
      (snd (Index.createTask (Some u) title description status now new_id tasks)) =
    (Resolved, tasks).
Proof.
  intros u title description status now new_id tasks Hnd Hfresh.
  rewrite createTask_signed_in by assumption. cbn [snd].
  unfold Index.deleteTask, Tasks.delete, settle,
    Tasks.Users_can_delete_their_own_tasks. f_equal.
  rewrite filter_app. simpl. rewrite !String.eqb_refl. simpl.
  rewrite app_nil_r. apply forallb_filter_id. apply forallb_forall.
  intros r Hr. rewrite negb_true_iff, andb_false_iff. right.
  apply String.eqb_neq. intros Hid. apply Hfresh. rewrite <- Hid. now apply in_map.
Qed.

Lemma createTask_then_deleteTask_witness :
  Index.deleteTask (Some Sample.alice) "t9"
    (snd (Index.createTask (Some Sample.alice) "Call mum" EmptyString pending 300 "t9"
            Sample.tasks)) =
  (Resolved, Sample.tasks).
Proof.
  apply createTask_then_deleteTask.
  - apply distinct_NoDup. reflexivity.
  - vm_compute. intuition discriminate.
Defined.

Lemma order_newest_last (r : Tasks.row) (l : list Tasks.row) :
  (forall x, In x l -> (Tasks.created_at x < Tasks.created_at r)%Z) ->
  Tasks.order_by_created_at_desc (l ++ [r]) = r :: Tasks.order_by_created_at_desc l.
Proof.
  unfold Tasks.order_by_created_at_desc. intros Hl.
  rewrite fold_right_app. simpl.
  induction l as [|x l IH]; simpl; [reflexivity|].
  rewrite IH by (intros y Hy; apply Hl; now right).
  simpl. specialize (Hl x (or_introl eq_refl)).
  assert ((Tasks.created_at r <=? Tasks.created_at x)%Z = false) as -> by lia.
  reflexivity.
Qed.

(** X8: a task created by a signed-in user at a time later than every
    existing task is the first entry of page 1 of the unfiltered list, and
    the count grows by one. *)
Theorem created_task_is_listed_first :
  forall (u : UUID) (title description : string) (status : TaskStatus)
         (now : Timestamp) (new_id : UUID) (tasks : list Tasks.row),
    NoDup (map Tasks.id tasks) -> ~ In new_id (map Tasks.id tasks) ->
    (forall r, In r tasks -> (Tasks.created_at r < now)%Z) ->
    exists before after rest,
      Index.queryFn (Some u) Index.all EmptyString 1 tasks = Ok before /\
      Index.queryFn (Some u) Index.all EmptyString 1
        (snd (Index.createTask (Some u) title description status now new_id tasks)) =
        Ok after /\
      Index.data after =
        Index.mkTask new_id title (Js.or_null description) status now :: rest /\
      Index.count after = S (Index.count before).
Proof.
  intros u title description status now new_id tasks Hnd Hfresh Hnew.
  rewrite createTask_signed_in by assumption. cbn [snd].
  set (r := Tasks.mk new_id u title (Js.or_null description) status now now).
  assert (Index.matching (Some u) Index.all EmptyString (tasks ++ [r]) =
          r :: Index.matching (Some u) Index.all EmptyString tasks) as Hm.
  { unfold Index.matching, Tasks.select. rewrite !filter_app.
    assert (filter (Tasks.Users_can_view_their_own_tasks (Some u)) [r] = [r]) as ->.
    { simpl. unfold Tasks.Users_can_view_their_own_tasks. simpl.
      now rewrite String.eqb_refl. }
    simpl. apply order_newest_last.
    intros x Hx. apply filter_In in Hx. destruct Hx as [Hx _].
    apply filter_In in Hx. destruct Hx as [Hx _]. simpl. now apply Hnew. }
  eexists. eexists.
  exists (map Index.select_columns
            (firstn 9 (Index.matching (Some u) Index.all EmptyString tasks))).
  split; [reflexivity|]. split; [reflexivity|].
  cbn [Index.data Index.count]. rewrite Hm. split; reflexivity.
Qed.

Lemma created_task_is_listed_first_witness :
  exists rest,
    page_data (Some Sample.alice) Index.all EmptyString
      (snd (Index.createTask (Some Sample.alice) "Call mum" EmptyString pending 300 "t9"
              Sample.tasks)) 1 =
    Index.mkTask "t9" "Call mum" None pending 300 :: rest.
Proof.
  destruct (created_task_is_listed_first Sample.alice "Call mum" EmptyString pending
              300 "t9" Sample.tasks) as (before & after & rest & _ & Ha & Hd & _).
  - apply distinct_NoDup. reflexivity.
  - vm_compute. intuition discriminate.
  - intros r Hr. simpl in Hr.
    destruct Hr as [<-|[<-|[<-|[<-|[]]]]]; simpl; lia.
  - exists rest. unfold page_data. rewrite Ha. exact Hd.
Defined.

(** ** Paging and order *)

Lemma firstn_add {A} (a b : nat) (l : list A) :
  firstn (a + b) l = firstn a l ++ firstn b (skipn a l).
Proof.
  revert l. induction a as [|a IH]; intros l; simpl; [reflexivity|].
  destruct l as [|x l]; simpl.
  - now rewrite firstn_nil.
  - now rewrite IH.
Qed.

Lemma chunks_concat {A} (l : list A) (n : nat) :
  flat_map (fun k => firstn 10 (skipn (10 * k) l)) (seq 0 n) = firstn (10 * n) l.
Proof.
  induction n as [|n IH]; [reflexivity|].
  rewrite seq_S, flat_map_app, IH. simpl flat_map. rewrite app_nil_r.
  replace (10 * S n) with (10 * n + 10) by lia.
  now rewrite firstn_add.
Qed.

Lemma page_data_slice (uid : option UUID) (f : Index.StatusFilter) (search : string)
    (tasks : list Tasks.row) (k : nat) :
  page_data uid f search tasks (Z.of_nat (S k)) =
  map Index.select_columns
      (firstn 10 (skipn (10 * k) (Index.matching uid f search tasks))).
Proof.
  unfold page_data, Index.queryFn, Sql.range, Index.pageSize. cbn [Index.data].
  replace (Z.to_nat ((Z.of_nat (S k) - 1) * 10)) with (10 * k) by lia.
  replace (Z.to_nat ((Z.of_nat (S k) - 1) * 10 + 10 - 1 -
                     (Z.of_nat (S k) - 1) * 10 + 1)) with 10 by lia.
  reflexivity.
Qed.

(** X9: a page never holds more than [pageSize] tasks, and the pages
    1 .. pageCount, one after the other, are exactly the matching tasks in
    order: no task is lost or listed twice by paging. *)
Theorem pages_partition_the_matches :
  forall (uid : option UUID) (statusFilter : Index.StatusFilter) (search : string)
         (tasks : list Tasks.row) (page : Z),
    (Z.of_nat (List.length (page_data uid statusFilter search tasks page))
       <= Index.pageSize)%Z /\
    flat_map (page_data uid statusFilter search tasks)
      (pages (Index.pageCount
                (Z.of_nat (totalCount uid statusFilter search page tasks)))) =
    map Index.select_columns (Index.matching uid statusFilter search tasks).
Proof.
  intros uid f search tasks page. unfold totalCount. split.
  - unfold page_data, Index.queryFn, Sql.range, Index.pageSize. cbn [Index.data].
    rewrite length_map, length_firstn. lia.
  - unfold Index.queryFn. cbn [Index.count].
    set (l := Index.matching uid f search tasks).
    rewrite pageCount_eq.
    set (n := Z.to_nat (Z.max 1 ((Z.of_nat (List.length l) + 9) / 10))).
    unfold pages. fold n.
    rewrite <- (seq_shift n 0), map_map, flat_map_concat_map, map_map.
    rewrite (map_ext _ (fun k => map Index.select_columns (firstn 10 (skipn (10 * k) l))))
      by (intros k; apply page_data_slice).
    rewrite <- map_map with (g := map Index.select_columns)
                            (f := fun k => firstn 10 (skipn (10 * k) l)).
    rewrite <- concat_map, <- flat_map_concat_map, chunks_concat.
    rewrite firstn_all2; [reflexivity|].
    subst n.
    pose proof (Z.div_mod (Z.of_nat (List.length l) + 9) 10 ltac:(lia)).
    pose proof (Z.mod_pos_bound (Z.of_nat (List.length l) + 9) 10 ltac:(lia)).
    lia.
Qed.

Section OrderFacts.

Lemma order_strongly_sorted (l : list Tasks.row) :
  StronglySorted row_newer_eq (Tasks.order_by_created_at_desc l).
Proof.
  generalize (order_sorted l). generalize (Tasks.order_by_created_at_desc l).
  induction 1 as [|r l' Hr Hl IH]; constructor; auto.
  apply Forall_forall. exact Hr.
Qed.

Lemma StronglySorted_app_l {A} (R : A -> A -> Prop) (a b : list A) :
  StronglySorted R (a ++ b) -> StronglySorted R a.
Proof.
  induction a as [|x a IH]; simpl; intros H; [constructor|].
  inversion H as [|? ? Hs Hf]; subst. constructor; auto.
  rewrite Forall_forall in *. intros y Hy. apply Hf. apply in_or_app. now left.
Qed.

Lemma StronglySorted_app_r {A} (R : A -> A -> Prop) (a b : list A) :
  StronglySorted R (a ++ b) -> StronglySorted R b.
Proof.
  induction a as [|x a IH]; simpl; intros H; auto.
  inversion H; subst. auto.
Qed.

Lemma StronglySorted_app_cross {A} (R : A -> A -> Prop) (a b : list A) (x y : A) :
  StronglySorted R (a ++ b) -> In x a -> In y b -> R x y.
Proof.
  induction a as [|z a IH]; simpl; intros H Hx Hy; [contradiction|].
  inversion H as [|? ? Hs Hf]; subst. destruct Hx as [->|Hx]; auto.
  rewrite Forall_forall in Hf. apply Hf. apply in_or_app. now right.
Qed.

Lemma StronglySorted_firstn {A} (R : A -> A -> Prop) (n : nat) (l : list A) :
  StronglySorted R l -> StronglySorted R (firstn n l).
Proof.
  intros H. rewrite <- (firstn_skipn n l) in H. now apply StronglySorted_app_l in H.
Qed.

Lemma StronglySorted_skipn {A} (R : A -> A -> Prop) (n : nat) (l : list A) :
  StronglySorted R l -> StronglySorted R (skipn n l).
Proof.
  intros H. rewrite <- (firstn_skipn n l) in H. now apply StronglySorted_app_r in H.
Qed.

Lemma StronglySorted_map {A B} (R : A -> A -> Prop) (S : B -> B -> Prop)
    (f : A -> B) (l : list A) :
  (forall x y, R x y -> S (f x) (f y)) ->
  StronglySorted R l -> StronglySorted S (map f l).
Proof.
  intros Hf. induction 1 as [|x l Hl IH Hx]; simpl; constructor; auto.
  rewrite Forall_forall in *. intros y Hy. apply in_map_iff in Hy.
  destruct Hy as [z [<- Hz]]. auto.
Qed.

Lemma filter_filter_length {A} (f g : A -> bool) (l : list A) :
  List.length (filter f (filter g l)) <= List.length (filter f l).
Proof.
  induction l as [|x l IH]; simpl; auto.
  destruct (g x) eqn:Eg, (f x) eqn:Ef; simpl; rewrite ?Ef; simpl; lia.
Qed.

Lemma firstn_In_le {A} (a b : nat) (l : list A) (x : A) :
  a <= b -> In x (firstn a l) -> In x (firstn b l).
Proof.
  intros Hab Hx. replace b with (a + (b - a)) by lia.
  rewrite firstn_add. apply in_or_app. now left.
Qed.

Lemma firstn_In {A} (n : nat) (l : list A) (x : A) : In x (firstn n l) -> In x l.
Proof.
  intros H. rewrite <- (firstn_skipn n l). apply in_or_app. now left.
Qed.

Lemma skipn_In {A} (n : nat) (l : list A) (x : A) : In x (skipn n l) -> In x l.
Proof.
  intros H. rewrite <- (firstn_skipn n l). apply in_or_app. now right.
Qed.

End OrderFacts.

(** X10: every page lists its tasks newest first, and every task on an
    earlier page is at least as new as every task on a later page. *)
Theorem pages_are_newest_first :
  forall (uid : option UUID) (statusFilter : Index.StatusFilter) (search : string)
         (tasks : list Tasks.row),
    (forall page,
       StronglySorted task_newer_eq (page_data uid statusFilter search tasks page)) /\
    forall (p q : Z) (a b : Index.Task),
      (1 <= p < q)%Z ->
      In a (page_data uid statusFilter search tasks p) ->
      In b (page_data uid statusFilter search tasks q) ->
      task_newer_eq a b.
Proof.
  intros uid f search tasks.
  assert (StronglySorted row_newer_eq (Index.matching uid f search tasks)) as Hs
    by apply order_strongly_sorted.
  split.
  - intros page. unfold page_data, Index.queryFn, Sql.range. cbn [Index.data].
    apply (StronglySorted_map row_newer_eq); [auto|].
    now apply StronglySorted_firstn, StronglySorted_skipn.
  - intros p q a b Hpq Ha Hb.
    replace p with (Z.of_nat (S (Z.to_nat (p - 1)))) in Ha by lia.
    replace q with (Z.of_nat (S (Z.to_nat (q - 1)))) in Hb by lia.
    rewrite page_data_slice in Ha, Hb.
    apply in_map_iff in Ha. destruct Ha as [ra [<- Ha]].
    apply in_map_iff in Hb. destruct Hb as [rb [<- Hb]].
    set (i := Z.to_nat (p - 1)) in *. set (j := Z.to_nat (q - 1)) in *.
    assert (In ra (firstn (10 * j) (Index.matching uid f search tasks))) as Ha'.
    { apply (firstn_In_le (10 * i + 10)); [lia|].
      rewrite firstn_add. apply in_or_app. now right. }
    apply firstn_In in Hb.
    rewrite <- (firstn_skipn (10 * j) (Index.matching uid f search tasks)) in Hs.
    exact (StronglySorted_app_cross _ _ _ _ _ Hs Ha' Hb).
Qed.

Lemma pages_are_newest_first_witness :
  task_newer_eq (Index.select_columns Sample.report) (Index.select_columns Sample.milk).
Proof.
  destruct (pages_are_newest_first (Some Sample.alice) Index.all EmptyString
              Sample.tasks) as [H _].
  specialize (H 1%Z). vm_compute in H.
  inversion H as [|? ? _ Hf]. inversion Hf as [|? ? Hm _]. exact Hm.
Defined.

(** X11: the "recent activity" list holds at most five tasks, all of them
    the caller's, newest first; a task of the caller that is left out is no
    newer than any task shown, and nothing is left out when the caller has
    at most five tasks. *)
Theorem recent_tasks_are_the_newest :
  forall (u : UUID) (tasks : list Tasks.row),
    let recent := ProfileQueries.recent_queryFn (Some u) tasks in
    List.length recent <= 5 /\
    (forall t, In t recent ->
       exists r, In r tasks /\ Tasks.user_id r = u /\ recent_columns r = t) /\
    StronglySorted
      (fun a b => (RecentTask.created_at b <= RecentTask.created_at a)%Z) recent /\
    (forall r t, In r tasks -> Tasks.user_id r = u ->
       ~ In (recent_columns r) recent -> In t recent ->
       (Tasks.created_at r <= RecentTask.created_at t)%Z) /\
    (List.length (filter (fun r => String.eqb (Tasks.user_id r) u) tasks) <= 5 ->
     forall r, In r tasks -> Tasks.user_id r = u -> In (recent_columns r) recent).
Proof.
  intros u tasks recent. subst recent. unfold ProfileQueries.recent_queryFn.
  fold recent_columns.
  set (l := Tasks.order_by_created_at_desc
              (Tasks.select (Some u) (fun r => String.eqb (Tasks.user_id r) u) tasks)).
  assert (forall r, In r l <-> In r tasks /\ Tasks.user_id r = u) as Hl.
  { intros r. subst l. rewrite order_In, select_In, auth_uid_eq_true, String.eqb_eq.
    split; [tauto|]. intros [H1 H2]. repeat split; auto. congruence. }
  assert (StronglySorted row_newer_eq l) as Hs by apply order_strongly_sorted.
  split; [|split; [|split; [|split]]].
  - rewrite length_map, length_firstn. lia.
  - intros t Ht. apply in_map_iff in Ht. destruct Ht as [r [<- Hr]].
    apply firstn_In, Hl in Hr. exists r. tauto.
  - apply (StronglySorted_map row_newer_eq); [auto|].
    now apply StronglySorted_firstn.
  - intros r t Hr Hu Hout Ht.
    apply in_map_iff in Ht. destruct Ht as [rt [<- Hrt]].
    assert (In r l) as Hin by now apply Hl.
    rewrite <- (firstn_skipn 5 l) in Hin, Hs.
    apply in_app_or in Hin. destruct Hin as [Hin|Hin].
    + exfalso. apply Hout. now apply in_map.
    + exact (StronglySorted_app_cross _ _ _ _ _ Hs Hrt Hin).
  - intros Hlen r Hr Hu. apply in_map.
    rewrite firstn_all2; [now apply Hl|].
    subst l. rewrite order_length. unfold Tasks.select.
    etransitivity; [apply filter_filter_length|exact Hlen].
Qed.

Lemma recent_tasks_are_the_newest_witness :
  In (recent_columns Sample.laundry)
     (ProfileQueries.recent_queryFn (Some Sample.alice) Sample.tasks).
Proof.
  destruct (recent_tasks_are_the_newest Sample.alice Sample.tasks)
    as (_ & _ & _ & _ & H).
  apply H.
  - vm_compute. lia.
  - simpl. tauto.
  - reflexivity.
Defined.

(** ** Filtering in the store and in the client *)

Lemma insert_desc_front (x : Tasks.row) (l : list Tasks.row) :
  (forall z, In z l -> (Tasks.created_at z <= Tasks.created_at x)%Z) ->
  Tasks.insert_desc x l = x :: l.
Proof.
  destruct l as [|y l]; simpl; auto. intros H.
  specialize (H y (or_introl eq_refl)).
  assert ((Tasks.created_at y <=? Tasks.created_at x)%Z = true) as -> by lia.
  reflexivity.
Qed.

Lemma filter_insert_desc (p : Tasks.row -> bool) (x : Tasks.row) (l : list Tasks.row) :
  newest_first l ->
  filter p (Tasks.insert_desc x l) =
  if p x then Tasks.insert_desc x (filter p l) else filter p l.
Proof.
  induction 1 as [|y l Hy Hl IH]; simpl.
  - destruct (p x); reflexivity.
  - destruct (Tasks.created_at y <=? Tasks.created_at x)%Z eqn:E.
    + simpl. destruct (p x) eqn:Ex; [|reflexivity].
      symmetry. apply insert_desc_front. apply Z.leb_le in E.
      intros z Hz. destruct (p y); [destruct Hz as [<-|Hz]|]; try lia;
        apply filter_In in Hz; destruct Hz as [Hz _]; specialize (Hy z Hz); lia.
    + simpl. rewrite IH. destruct (p y) eqn:Ey, (p x) eqn:Ex; simpl; rewrite ?E; auto.
Qed.

(** Filtering commutes with the ordering. *)
Lemma filter_order (p : Tasks.row -> bool) (l : list Tasks.row) :
  filter p (Tasks.order_by_created_at_desc l) =
  Tasks.order_by_created_at_desc (filter p l).
Proof.
  induction l as [|x l IH]; [reflexivity|].
  change (Tasks.order_by_created_at_desc (x :: l))
    with (Tasks.insert_desc x (Tasks.order_by_created_at_desc l)).
  rewrite filter_insert_desc by apply order_sorted.
  simpl. destruct (p x); rewrite IH; reflexivity.
Qed.

Lemma filter_map_comm {A B} (g : B -> bool) (h : A -> B) (l : list A) :
  filter g (map h l) = map h (filter (fun x => g (h x)) l).
Proof.
  induction l as [|x l IH]; simpl; auto.
  destruct (g (h x)); simpl; now rewrite IH.
Qed.

Lemma toLowerCase_empty (s : string) :
  Js.toLowerCase s = EmptyString -> s = EmptyString.
Proof. destruct s; simpl; congruence. Qed.

Lemma search_clause_client (search : string) (r : Tasks.row) :
  Js.trim search = EmptyString \/ (Js.trim search = search /\ plain search) ->
  IndexEarlier.matchesSearch search (Index.select_columns r) =
  Index.search_clause search r.
Proof.
  unfold IndexEarlier.matchesSearch, Index.search_clause.
  intros [Hb|[Ht Hp]].
  - rewrite Hb. reflexivity.
  - rewrite Ht. destruct search as [|c search]; [reflexivity|].
    cbn [Js.truthy String.length Nat.eqb orb Index.title Index.description
         Index.select_columns].
    unfold Sql.ilike_filter.
    rewrite ilike_contains by assumption. f_equal.
    destruct (Tasks.description r) as [d|]; simpl Js.nullish.
    + now rewrite ilike_contains by assumption.
    + reflexivity.
Qed.

(** X12: for a search text without surrounding white space and without
    filter characters (or one that is blank), filtering in the client, as
    the earlier dashboard did, yields exactly the rows the query of the
    current dashboard matches, in the same order. *)
Theorem client_filter_agrees_with_query :
  forall (uid : option UUID) (statusFilter : Index.StatusFilter) (search : string)
         (tasks : list Tasks.row),
    Js.trim search = EmptyString \/ (Js.trim search = search /\ plain search) ->
    IndexEarlier.filteredTasks (earlier_tasks uid tasks) search statusFilter =
    map Index.select_columns (Index.matching uid statusFilter search tasks).
Proof.
  intros uid f search tasks Hs.
  unfold earlier_tasks, IndexEarlier.queryFn, IndexEarlier.filteredTasks,
    Index.matching, Tasks.select.
  rewrite filter_true, filter_map_comm. f_equal.
  rewrite <- (filter_order
                (fun r => Index.status_clause f r && Index.search_clause search r)).
  apply filter_ext. intros r.
  rewrite (search_clause_client search r Hs), andb_comm. f_equal.
Qed.

Lemma client_filter_agrees_with_query_witness :
  IndexEarlier.filteredTasks (earlier_tasks (Some Sample.alice) Sample.tasks) "milk"
    (Index.only pending) =
  [Index.select_columns Sample.milk].
Proof.
  rewrite (client_filter_agrees_with_query (Some Sample.alice) (Index.only pending)
             "milk" Sample.tasks).
  - reflexivity.
  - right. split; [reflexivity|]. each_char.
Defined.

(** ** The profile page and the dashboard count the same tasks *)

Lemma occurrences_map_status (st : TaskStatus) (l : list Tasks.row) :
  occurrences st (map Tasks.status l) =
  List.length (filter (fun r => TaskStatus_eqb (Tasks.status r) st) l).
Proof.
  unfold occurrences. induction l as [|r l IH]; simpl; auto.
  destruct (Tasks.status r), st; simpl; auto.
Qed.

Lemma select_own (u : UUID) (w : Tasks.row -> bool) (tasks : list Tasks.row) :
  Tasks.select (Some u) (fun r => String.eqb (Tasks.user_id r) u && w r) tasks =
  Tasks.select (Some u) w tasks.
Proof.
  unfold Tasks.select. apply filter_ext_in. intros r Hr.
  apply filter_In in Hr. destruct Hr as [_ Hr].
  unfold Tasks.Users_can_view_their_own_tasks in Hr. simpl in Hr.
  now rewrite String.eqb_sym, Hr.
Qed.

(** X13: the three numbers of the profile page are the counts the dashboard
    reports for the same user: "Total" is the count of the unfiltered list,
    "Completed" and "Pending" are the counts under the two status
    filters.  The explicit [user_id] condition of the profile query adds
    nothing to what the select policy already enforces. *)
Theorem profile_counts_match_dashboard :
  forall (u : UUID) (tasks : list Tasks.row) (page : Z),
    let counts := Profile.counts (Some u) tasks in
    Profile.totalTasks counts =
      totalCount (Some u) Index.all EmptyString page tasks /\
    Profile.completedTasks counts =
      totalCount (Some u) (Index.only completed) EmptyString page tasks /\
    Profile.pendingTasks counts =
      totalCount (Some u) (Index.only pending) EmptyString page tasks.
Proof.
  intros u tasks page counts. subst counts. rewrite counts_entries.
  unfold totalCount, Index.queryFn. cbn [Index.count].
  unfold Profile.completedTasks, Profile.pendingTasks.
  rewrite totalTasks_entries, !count_of_entries.
  remember (fetched_statuses (Some u) tasks) as rows eqn:Hrows.
  destruct (summarize_from rows []) as [Ht Hg].
  pose proof (Hg completed) as Hc. pose proof (Hg pending) as Hp.
  simpl in Ht, Hc, Hp.
  fold (Profile.summarize rows) in Ht, Hc, Hp.
  rewrite Ht, Hc, Hp. subst rows. unfold fetched_statuses.
  rewrite !occurrences_map_status, length_map.
  unfold Index.matching. rewrite !order_length.
  assert (Tasks.select (Some u) (fun r => String.eqb (Tasks.user_id r) u) tasks =
          Tasks.select (Some u) (fun _ => true) tasks) as Hsel.
  { rewrite <- (select_own u (fun _ => true)). unfold Tasks.select.
    apply filter_ext. intros r. now rewrite andb_true_r. }
  rewrite Hsel. unfold Tasks.select. rewrite filter_true.
  repeat split.
  - f_equal. symmetry. rewrite <- (filter_true (filter _ tasks)) at 2.
    apply filter_ext. reflexivity.
  - f_equal. apply filter_ext. intros r. simpl. now rewrite andb_true_r.
  - f_equal. apply filter_ext. intros r. simpl. now rewrite andb_true_r.
Qed.

(** ** Loading and saving the profile *)

Lemma select_profiles_of (u : UUID) (t : list Profiles.row) :
  ProfileQueries.select (Some u) (fun r => String.eqb (Profiles.user_id r) u) t =
  profiles_of u t.
Proof.
  unfold ProfileQueries.select, profiles_of,
    Profiles.Users_can_view_their_own_profile.
  rewrite (filter_ext (fun r => Sql.auth_uid_eq (Some u) (Profiles.user_id r))
             (fun r => String.eqb (Profiles.user_id r) u)).
  - apply filter_idem.
  - intros r. simpl. apply String.eqb_sym.
Qed.

Lemma profile_query_single (u : UUID) (t : list Profiles.row) (r : Profiles.row) :
  profiles_of u t = [r] ->
  ProfileQueries.profile_queryFn (Some u) t =
    ProfileQueries.Returned (Some (ProfileQueries.select_columns r)).
Proof.
  intros H. unfold ProfileQueries.profile_queryFn.
  now rewrite select_profiles_of, H.
Qed.

(** X14: the profile query never throws.  When it returns a profile, that
    profile is a stored row of the caller; when the table holds at most one
    row per user it returns the caller's row if there is one, and null when
    there is none. *)
Theorem profile_query_returns_own_profile :
  forall (user : option UUID) (profiles : list Profiles.row),
    (exists o, ProfileQueries.profile_queryFn user profiles = ProfileQueries.Returned o) /\
    (forall p,
       ProfileQueries.profile_queryFn user profiles = ProfileQueries.Returned (Some p) ->
       exists r, In r profiles /\ ProfileQueries.select_columns r = p /\
                 user = Some (Profiles.user_id r)) /\
    (profiles_ok profiles ->
     forall r, In r profiles -> user = Some (Profiles.user_id r) ->
       ProfileQueries.profile_queryFn user profiles =
         ProfileQueries.Returned (Some (ProfileQueries.select_columns r))) /\
    ((forall r, In r profiles -> user <> Some (Profiles.user_id r)) ->
     ProfileQueries.profile_queryFn user profiles = ProfileQueries.Returned None).
Proof.
  intros user profiles. destruct user as [u|].
  - unfold ProfileQueries.profile_queryFn. rewrite select_profiles_of.
    assert (forall r, In r (profiles_of u profiles) ->
                      In r profiles /\ Profiles.user_id r = u) as Hin.
    { intros r Hr. apply filter_In in Hr. now rewrite String.eqb_eq in Hr. }
    split; [|split; [|split]].
    + destruct (profiles_of u profiles) as [|r1 [|r2 rest]]; simpl; eauto.
    + intros p. destruct (profiles_of u profiles) as [|r1 [|r2 rest]]; simpl;
        try discriminate.
      intros [= <-]. exists r1. destruct (Hin r1 (or_introl eq_refl)) as [H1 H2].
      repeat split; auto. congruence.
    + intros [_ Hus] r Hr [= ->].
      now rewrite (profiles_of_single _ profiles r Hus Hr eq_refl).
    + intros Hnone.
      destruct (profiles_of u profiles) as [|r1 rest] eqn:E; [reflexivity|].
      exfalso. destruct (Hin r1 (or_introl eq_refl)) as [H1 H2].
      apply (Hnone r1 H1). congruence.
  - split; [|split; [|split]].
    + now exists None.
    + discriminate.
    + discriminate.
    + reflexivity.
Qed.

Lemma profile_query_returns_own_profile_witness :
  ProfileQueries.profile_queryFn (Some Sample.alice) [Sample.profile] =
    ProfileQueries.Returned (Some (ProfileView.mk "p1" Sample.alice (Some "Alice") None)) /\
  ProfileQueries.profile_queryFn (Some Sample.bob) [Sample.profile] =
    ProfileQueries.Returned None.
Proof.
  split.
  - destruct (profile_query_returns_own_profile (Some Sample.alice) [Sample.profile])
      as (_ & _ & H & _).
    apply (H ltac:(split; simpl; (constructor; [intros []|constructor]))
             Sample.profile (or_introl eq_refl) eq_refl).
  - destruct (profile_query_returns_own_profile (Some Sample.bob) [Sample.profile])
      as (_ & _ & _ & H).
    apply H. intros r [<-|[]]. discriminate.
Defined.

Lemma upsertProfile_row (u : UUID) (name avatarUrl : string)
    (args : option Profile.UpsertProfileArgs) (now : Timestamp) (new_id : UUID)
    (b : Profile.Backend) :
  profiles_ok (Profile.profiles b) ->
  ~ In new_id (map Profiles.id (Profile.profiles b)) ->
  exists r,
    profiles_of u
      (Profile.profiles
         (snd (Profile.upsertProfile (Some u) name avatarUrl args now new_id b))) = [r] /\
    Profiles.user_id r = u /\
    Profiles.name r = Profiles.v_name (profile_payload u name avatarUrl args) /\
    Profiles.avatar_url r = Profiles.v_avatar_url (profile_payload u name avatarUrl args).
Proof.
  intros Hok Hfresh. set (v := profile_payload u name avatarUrl args).
  destruct (owner_row_dec u (Profile.profiles b)) as [Hex|Hnone].
  - rewrite (upsertProfile_existing _ _ _ _ _ _ _ Hok Hex).
    cbn [snd Profile.profiles]. fold v. destruct Hex as [r [Hr Hu]].
    destruct (replace_post u v now _ r eq_refl Hok Hr Hu) as (_ & Hone & _).
    exists (replaced v now r). repeat split; auto.
  - rewrite (upsertProfile_new _ _ _ _ _ _ _ Hok Hnone Hfresh).
    cbn [snd Profile.profiles]. fold v.
    destruct (append_post u (Profile.profiles b)
                (Profiles.mk new_id u (Profiles.v_name v) (Profiles.v_avatar_url v)
                   now now) Hok eq_refl Hfresh Hnone) as [_ Hone].
    eexists. split; [exact Hone|]. repeat split.
Qed.

(** X15: what a signed-in user saves is what the page loads afterwards.
    The profile query returns the saved row; the form then shows the saved
    avatar URL, and the saved name, or, when the name was left empty, the
    part of the e-mail address before the "@". *)
Theorem saved_profile_is_loaded :
  forall (u : UUID) (name avatarUrl : string)
         (args : option Profile.UpsertProfileArgs) (now : Timestamp) (new_id : UUID)
         (b : Profile.Backend) (email : option string),
    profiles_ok (Profile.profiles b) ->
    ~ In new_id (map Profiles.id (Profile.profiles b)) ->
    let finalAvatarUrl :=
      Js.nullish (match args with
                  | Some a => Profile.overrideAvatarUrl a
                  | None => None
                  end) avatarUrl in
    exists p,
      ProfileQueries.profile_queryFn (Some u)
        (Profile.profiles
           (snd (Profile.upsertProfile (Some u) name avatarUrl args now new_id b))) =
        ProfileQueries.Returned (Some p) /\
      ProfileView.user_id p = u /\
      ProfileView.name p = Js.or_null name /\
      ProfileView.avatar_url p = Js.or_null finalAvatarUrl /\
      ProfileQueries.initial_avatarUrl (Some p) = finalAvatarUrl /\
      ProfileQueries.initial_name (Some p) email =
        if Js.truthy name then name
        else Js.nullish (option_map ProfileQueries.before_at email) EmptyString.
Proof.
  intros u name avatarUrl args now new_id b email Hok Hfresh finalAvatarUrl.
  destruct (upsertProfile_row u name avatarUrl args now new_id b Hok Hfresh)
    as (r & Hone & Hu & Hn & Ha).
  exists (ProfileQueries.select_columns r).
  split; [now apply profile_query_single|].
  unfold ProfileQueries.initial_avatarUrl, ProfileQueries.initial_name.
  cbn [ProfileQueries.select_columns ProfileView.user_id ProfileView.name
       ProfileView.avatar_url].
  rewrite Hn, Ha. cbn [profile_payload Profiles.v_name Profiles.v_avatar_url].
  fold finalAvatarUrl. repeat split; auto.
  - unfold Js.or_null. destruct finalAvatarUrl; reflexivity.
  - unfold Js.or_null. destruct (Js.truthy name); reflexivity.
Qed.

Lemma saved_profile_is_loaded_witness :
  exists p,
    ProfileQueries.profile_queryFn (Some Sample.bob)
      (Profile.profiles
         (snd (Profile.upsertProfile (Some Sample.bob) EmptyString "https://x/b.png" None
                 50 "p2" Sample.backend))) =
      ProfileQueries.Returned (Some p) /\
    ProfileQueries.initial_name (Some p) (Some "bob@example.org") = "bob" /\
    ProfileQueries.initial_avatarUrl (Some p) = "https://x/b.png".
Proof.
  destruct (saved_profile_is_loaded Sample.bob EmptyString "https://x/b.png" None 50
              "p2" Sample.backend (Some "bob@example.org"))
    as (p & Hq & _ & _ & _ & Ha & Hn).
  - split; simpl; (constructor; [intros []|constructor]).
  - simpl. intros [H|[]]. discriminate.
  - exists p. split; [exact Hq|]. split; [exact Hn|exact Ha].
Defined.

Lemma truthy_trim (s : string) : Js.truthy (Js.trim s) = true -> Js.truthy s = true.
Proof. destruct s; [discriminate|reflexivity]. Qed.

(** X16: "Save changes" never writes a profile whose name and avatar are
    both null: while both fields are blank the button is disabled and
    nothing is sent, and every request a click does send carries a name or
    an avatar URL. *)
Theorem save_never_writes_an_empty_profile :
  forall (isPending : bool) (user : option UUID) (name avatarUrl : string)
         (now : Timestamp) (new_id : UUID) (b : Profile.Backend),
    (whitespace_only name -> whitespace_only avatarUrl ->
     ProfileQueries.save_click isPending user name avatarUrl now new_id b =
       (NotInvoked, b)) /\
    (Profile.requests
       (snd (ProfileQueries.save_click isPending user name avatarUrl now new_id b)) =
       Profile.requests b \/
     exists v,
       Profile.requests
         (snd (ProfileQueries.save_click isPending user name avatarUrl now new_id b)) =
         Profile.requests b ++ [ProfilesUpsert v] /\
       (Profiles.v_name v <> None \/ Profiles.v_avatar_url v <> None)).
Proof.
  intros isPending user name avatarUrl now new_id b. split.
  - intros Hn Ha. apply trim_empty in Hn, Ha.
    unfold ProfileQueries.save_click, ProfileQueries.save_disabled.
    rewrite Hn, Ha. simpl. now rewrite orb_true_r.
  - unfold ProfileQueries.save_click, ProfileQueries.save_disabled.
    destruct isPending; simpl; [now left|].
    destruct (Js.truthy (Js.trim name)) eqn:En; simpl.
    + destruct user as [u|]; [|now left]. right.
      exists (profile_payload u name avatarUrl (Some (Profile.mkArgs None))).
      split; [apply upsertProfile_requests|]. left.
      simpl. unfold Js.or_null. rewrite (truthy_trim _ En). discriminate.
    + destruct (Js.truthy (Js.trim avatarUrl)) eqn:Ea; simpl; [|now left].
      destruct user as [u|]; [|now left]. right.
      exists (profile_payload u name avatarUrl (Some (Profile.mkArgs None))).
      split; [apply upsertProfile_requests|]. right.
      simpl. unfold Js.or_null. rewrite (truthy_trim _ Ea). discriminate.
Qed.

Lemma save_never_writes_an_empty_profile_witness :
  ProfileQueries.save_click false (Some Sample.alice) "  " EmptyString 60 "p2"
    Sample.backend = (NotInvoked, Sample.backend).
Proof.
  apply (save_never_writes_an_empty_profile false (Some Sample.alice) "  " EmptyString
           60 "p2" Sample.backend).
  - each_char.
  - intros c [].
Defined.

(** ** Storage keys of avatars *)

Lemma string_app_assoc (a b c : string) :
  (a ++ (b ++ c))%string = ((a ++ b) ++ c)%string.
Proof. induction a; simpl; congruence. Qed.

Lemma no_slash_cons (c : ascii) (s : string) :
  no_slash (String c s) <-> c <> "/"%char /\ no_slash s.
Proof.
  unfold no_slash. simpl. split.
  - intros H. split; [intros ->; apply H; now left|intros Hs; apply H; now right].
  - intros [Hc Hs] [H|H]; [now apply Hc|now apply Hs].
Qed.

Lemma user_prefix_inj (a b x y : string) :
  no_slash a -> no_slash b ->
  (a ++ "/" ++ x)%string = (b ++ "/" ++ y)%string -> a = b.
Proof.
  revert b. induction a as [|c a IH]; intros [|d b] Ha Hb H; simpl in H.
  - reflexivity.
  - injection H as Hc _. apply no_slash_cons in Hb. destruct Hb as [Hb _]. congruence.
  - injection H as Hc _. apply no_slash_cons in Ha. destruct Ha as [Ha _]. congruence.
  - injection H as -> H. apply no_slash_cons in Ha, Hb. f_equal.
    apply IH; tauto.
Qed.

(** X17: the upload handler stores a file under a key that starts with the
    identity of the signed-in user followed by "/"; as identities contain
    no "/", uploads of two different users never share a key, whatever the
    files and the time. *)
Theorem avatar_keys_are_per_user :
  (forall (file : File.t) (u : UUID) (env : Profile.Env) (ui : Profile.Ui)
          (b : Profile.Backend),
     exists rest,
       Profile.requests (snd (Profile.avatar_onChange (Some file) (Some u) env ui b)) =
       Profile.requests b ++
         StorageUpload "avatars"
           (ProfileQueries.filePath u (Profile.Date_now env) file) file :: rest) /\
  (forall (u : UUID) (t : Z) (file : File.t),
     Js.startsWith (ProfileQueries.filePath u t file) (u ++ "/") = true) /\
  (forall (u1 u2 : UUID) (t1 t2 : Z) (file1 file2 : File.t),
     no_slash u1 -> no_slash u2 ->
     ProfileQueries.filePath u1 t1 file1 = ProfileQueries.filePath u2 t2 file2 ->
     u1 = u2).
Proof.
  split; [|split].
  - intros file u env ui b. unfold Profile.avatar_onChange.
    fold (ProfileQueries.filePath u (Profile.Date_now env) file).
    destruct (Profile.upload_failed env).
    + exists []. reflexivity.
    + match goal with
      | |- context [Profile.upsertProfile ?a ?n ?av ?ar ?t ?i ?b1] =>
          pose proof (upsertProfile_requests u n av ar t i b1) as Hreq;
          destruct (Profile.upsertProfile a n av ar t i b1) as [o b2]
      end.
      cbn [snd] in *. rewrite Hreq. cbn [Profile.requests].
      rewrite <- app_assoc. eexists. reflexivity.
  - intros u t file. apply startsWith_spec. unfold ProfileQueries.filePath.
    eexists. rewrite <- string_app_assoc. reflexivity.
  - intros u1 u2 t1 t2 file1 file2 H1 H2 Hp.
    unfold ProfileQueries.filePath in Hp. now apply user_prefix_inj in Hp.
Qed.

Lemma avatar_keys_are_per_user_witness :
  ProfileQueries.filePath Sample.alice 5 Sample.big_pdf <>
  ProfileQueries.filePath Sample.bob 5 Sample.big_pdf.
Proof.
  destruct avatar_keys_are_per_user as (_ & _ & H).
  intros Heq.
  assert (Sample.alice = Sample.bob) as Hu; [|discriminate].
  apply (H Sample.alice Sample.bob 5%Z 5%Z Sample.big_pdf Sample.big_pdf); auto.
  - unfold no_slash. vm_compute. intuition discriminate.
  - unfold no_slash. vm_compute. intuition discriminate.
Defined.

(** X18: the earlier upload handler sends a request only for an image of at
    most 5 MiB.  Any other file is turned away with a message and nothing is
    sent; an accepted file goes to a key under "user-<id>/" whose extension
    is never empty, and the uploading flag is cleared afterwards whether or
    not the upload worked. *)
Theorem earlier_upload_only_valid_images :
  forall (file : File.t) (u : UUID) (env : Profile.Env) (ui : Profile.Ui)
         (b : Profile.Backend),
    let result := ProfileEarlier.avatar_onChange (Some file) (Some u) env ui b in
    (is_valid_image file = false ->
     snd result = b /\ Profile.uploadError (fst result) <> None) /\
    (is_valid_image file = true ->
     Profile.isUploadingAvatar (fst result) = false /\
     exists ext rest,
       ext <> EmptyString /\
       Profile.requests (snd result) =
       Profile.requests b ++
         StorageUpload "avatars"
           ("user-" ++ u ++ "/" ++ Js.number_to_string (Profile.Date_now env)
              ++ "." ++ ext)%string file :: rest).
Proof.
  intros file u env ui b result. subst result.
  unfold is_valid_image, ProfileEarlier.avatar_onChange, ProfileEarlier.maxSizeMb.
  change (5 * 1024 * 1024)%Z with 5242880%Z.
  destruct (File.size file >? 5242880)%Z eqn:Es.
  - split.
    + intros _. split; [reflexivity|discriminate].
    + intros H. apply andb_true_iff in H. destruct H as [H _].
      apply Z.leb_le in H. apply Z.gtb_gt in Es. lia.
  - assert ((File.size file <=? 5242880)%Z = true) as Hle.
    { apply Z.leb_le. destruct (Z.gtb_spec (File.size file) 5242880); [discriminate|lia]. }
    rewrite Hle. cbn [andb].
    destruct (Js.startsWith (File.type file) "image/") eqn:Et; cbn [negb].
    + split; [discriminate|]. intros _.
      set (ext := if Js.truthy (Js.split_pop "." (File.name file))
                  then Js.split_pop "." (File.name file) else "png").
      assert (ext <> EmptyString) as Hext.
      { subst ext. destruct (Js.split_pop "." (File.name file)); simpl; discriminate. }
      destruct (Profile.upload_failed env).
      * split; [reflexivity|]. exists ext, []. split; auto.
      * match goal with
        | |- context [Profile.upsertProfile ?a ?n ?av ?ar ?t ?i ?b1] =>
            pose proof (upsertProfile_requests u n av ar t i b1) as Hreq;
            destruct (Profile.upsertProfile a n av ar t i b1) as [o b2]
        end.
        cbn [fst snd] in *. split; [reflexivity|].
        exists ext. eexists. split; auto.
        rewrite Hreq. cbn [Profile.requests]. rewrite <- app_assoc. reflexivity.
    + split; [|discriminate]. intros _. split; [reflexivity|discriminate].
Qed.

Lemma earlier_upload_only_valid_images_witness :
  snd (ProfileEarlier.avatar_onChange (Some Sample.notes) (Some Sample.alice) Sample.env
         Sample.ui Sample.backend) = Sample.backend /\
  Profile.isUploadingAvatar
    (fst (ProfileEarlier.avatar_onChange (Some Sample.small_png) (Some Sample.alice)
            Sample.env Sample.ui Sample.backend)) = false.
Proof.
  split.
  - apply (earlier_upload_only_valid_images Sample.notes Sample.alice Sample.env
             Sample.ui Sample.backend). reflexivity.
  - apply (earlier_upload_only_valid_images Sample.small_png Sample.alice Sample.env
             Sample.ui Sample.backend). reflexivity.
Defined.

(** ** The task form *)

(** X19: a second click on "Add Task" right after a successful creation
    creates nothing, because the form was cleared; nor does a click while a
    creation is pending.  A failed creation keeps the form as typed. *)
Theorem add_task_twice_creates_once :
  forall (user : option UUID) (form : TaskForm.t) (now now2 : Timestamp)
         (new_id new_id2 : UUID) (tasks : list Tasks.row),
    let first := TaskForm.submit false user form now new_id tasks in
    (fst (fst first) = Resolved ->
     TaskForm.submit false user (snd (fst first)) now2 new_id2 (snd first) =
       (NotInvoked, snd (fst first), snd first)) /\
    (fst (fst first) <> Resolved -> snd (fst first) = form /\ snd first = tasks) /\
    TaskForm.submit true user form now new_id tasks = (NotInvoked, form, tasks).
Proof.
  intros user form now now2 new_id new_id2 tasks first. subst first.
  unfold TaskForm.submit, Index.addTask_click.
  split; [|split].
  - destruct (Index.addTask_disabled false (TaskForm.title form)); [discriminate|].
    destruct (Index.createTask _ _ _ _ _ _ _) as [o t]. cbn [fst snd].
    intros ->. reflexivity.
  - destruct (Index.addTask_disabled false (TaskForm.title form)); [now split|].
    unfold Index.createTask, settle.
    destruct (Index.createTask_mutationFn _ _ _ _ _ _ _); cbn [fst snd].
    + intros H. now contradiction H.
    + intros _. now split.
  - reflexivity.
Qed.

Lemma add_task_twice_creates_once_witness :
  TaskForm.submit false (Some Sample.alice)
    (snd (fst (TaskForm.submit false (Some Sample.alice)
                 (TaskForm.mk "Call mum" EmptyString pending) 300 "t9" Sample.tasks)))
    301 "t10"
    (snd (TaskForm.submit false (Some Sample.alice)
            (TaskForm.mk "Call mum" EmptyString pending) 300 "t9" Sample.tasks)) =
  (NotInvoked, TaskForm.mk EmptyString EmptyString pending,
   Sample.tasks ++ [Tasks.mk "t9" Sample.alice "Call mum" None pending 300 300]).
Proof.
  apply (add_task_twice_creates_once (Some Sample.alice)
           (TaskForm.mk "Call mum" EmptyString pending) 300 301 "t9" "t10" Sample.tasks).
  reflexivity.
Defined.

(** ** The authentication hook *)



